(** * Playlist import service: a shallow embedding and its properties

    The development follows [src/services/playlistImportService.ts]:
    URL classification and parsing, the three provider fetchers, the track
    matcher and the import orchestrator.

    Conventions of the embedding:
    - a JavaScript string is a [string] (URLs are ASCII; [toLowerCase] acts
      on the letters A to Z, every other character is left alone);
    - a value that comes out of [JSON.parse] or [response.json()] is a
      [value]; JSON numbers are integers;
    - asynchronous code is sequential code ([await] everywhere in the source):
      a computation is a function from the history of observable events to a
      result and the extended history;
    - everything outside the file (network, catalog search, playlist store,
      clock, the runtime's JSON parser) is a field of [World]; an answer may
      depend on the whole history, so two calls with the same argument may
      differ;
    - [console] output is not an observable event of the model. *)

From Stdlib Require Import List String Ascii ZArith Bool Lia Arith.
From Stdlib Require DecimalString.
Import ListNotations.
Local Open Scope string_scope.
Set Warnings "-register-all".


(* ====================================================================== *)
(** ** Strings *)
(* ====================================================================== *)

Module Str.

Definition inRange (lo hi : nat) (c : ascii) : bool :=
  let n := nat_of_ascii c in (lo <=? n)%nat && (n <=? hi)%nat.

Definition isUpper : ascii -> bool := inRange 65 90.
Definition isLower : ascii -> bool := inRange 97 122.
Definition isDigit : ascii -> bool := inRange 48 57.

(** The character class [[a-zA-Z0-9]]. *)
Definition isAlnum (c : ascii) : bool := isLower c || isUpper c || isDigit c.

(** The character class [[a-zA-Z0-9_-]]. *)
Definition isListIdChar (c : ascii) : bool :=
  isAlnum c || Ascii.eqb c "_" || Ascii.eqb c "-".

(** The class [\s] on ASCII: tab, line feed, vertical tab, form feed,
    carriage return and space. *)
Definition isSpace (c : ascii) : bool :=
  inRange 9 13 c || Ascii.eqb c " ".

Definition lowerChar (c : ascii) : ascii :=
  if isUpper c then ascii_of_nat (nat_of_ascii c + 32) else c.

(** [String.prototype.toLowerCase]. *)
Fixpoint toLowerCase (s : string) : string :=
  match s with
  | EmptyString => EmptyString
  | String c s' => String (lowerChar c) (toLowerCase s')
  end.

(** [s] starts with the literal [p]. *)
Fixpoint startsWith (p s : string) : bool :=
  match p, s with
  | EmptyString, _ => true
  | String a p', String b s' => Ascii.eqb a b && startsWith p' s'
  | String _ _, EmptyString => false
  end.

(** [String.prototype.includes]: some suffix of [s] starts with [sub]. *)
Fixpoint includes (s sub : string) : bool :=
  startsWith sub s ||
  match s with
  | EmptyString => false
  | String _ s' => includes s' sub
  end.

(** [stripPrefix p s] is what follows the literal [p] at the start of [s]. *)
Fixpoint stripPrefix (p s : string) : option string :=
  match p, s with
  | EmptyString, _ => Some s
  | String a p', String b s' =>
      if Ascii.eqb a b then stripPrefix p' s' else None
  | String _ _, EmptyString => None
  end.

(** The longest prefix of [s] made of characters of class [p], and the rest:
    a greedy [[...]*]. *)
Fixpoint span (p : ascii -> bool) (s : string) : string * string :=
  match s with
  | EmptyString => (EmptyString, EmptyString)
  | String c s' =>
      if p c then let '(run, rest) := span p s' in (String c run, rest)
      else (EmptyString, s)
  end.

(** An unanchored regular expression tries every start position from the
    left; [m] is the matcher anchored at the start of its argument. *)
Fixpoint searchFrom {A : Type} (m : string -> option A) (s : string)
  : option A :=
  match m s with
  | Some a => Some a
  | None =>
      match s with
      | EmptyString => None
      | String _ s' => searchFrom m s'
      end
  end.

(** A lazy [.*?] followed by the literal [stop] (with the dot matching every
    character): the shortest prefix of [s] after which [stop] follows. *)
Fixpoint lazyUntil (stop s : string) : option string :=
  if startsWith stop s then Some EmptyString
  else
    match s with
    | EmptyString => None
    | String c s' =>
        match lazyUntil stop s' with
        | Some body => Some (String c body)
        | None => None
        end
    end.

End Str.

(* ====================================================================== *)
(** ** URL parsing *)
(* ====================================================================== *)

Inductive ImportPlatform : Type := spotify | apple | youtube | unknown.

Definition detectPlatform (url : string) : ImportPlatform :=
  let lowerUrl := Str.toLowerCase url in
  if Str.includes lowerUrl "spotify.com" || Str.includes lowerUrl "spotify.link"
  then spotify
  else if Str.includes lowerUrl "music.apple.com"
          || Str.includes lowerUrl "itunes.apple.com"
  then apple
  else if Str.includes lowerUrl "music.youtube.com"
          || Str.includes lowerUrl "youtube.com/playlist"
  then youtube
  else unknown.

(** [/playlist\/([a-zA-Z0-9]+)/] anchored at the start of [s]. *)
Definition spotifyIdAt (s : string) : option string :=
  match Str.stripPrefix "playlist/" s with
  | Some rest =>
      match fst (Str.span Str.isAlnum rest) with
      | EmptyString => None
      | id => Some id
      end
  | None => None
  end.

Definition parseSpotifyUrl (url : string) : option string :=
  Str.searchFrom spotifyIdAt url.

Record AppleRef : Type := { storefront : string; id : string }.

(** [/music\.apple\.com\/([a-z]{2})\/playlist\/[^\/]+\/(pl\.[a-zA-Z0-9]+)/]
    anchored at the start of [s].  The greedy [[^\/]+] has to be followed by
    a slash, so it takes every character up to the next slash. *)
Definition appleRefAt (s : string) : option AppleRef :=
  match Str.stripPrefix "music.apple.com/" s with
  | Some (String c1 (String c2 rest)) =>
      if Str.isLower c1 && Str.isLower c2 then
        match Str.stripPrefix "/playlist/" rest with
        | Some rest1 =>
            match Str.span (fun c => negb (Ascii.eqb c "/")) rest1 with
            | (EmptyString, _) => None
            | (_, rest2) =>
                match Str.stripPrefix "/pl." rest2 with
                | Some rest3 =>
                    match fst (Str.span Str.isAlnum rest3) with
                    | EmptyString => None
                    | run =>
                        Some {| storefront := String c1 (String c2 EmptyString);
                                id := "pl." ++ run |}
                    end
                | None => None
                end
            end
        | None => None
        end
      else None
  | _ => None
  end.

Definition parseAppleMusicUrl (url : string) : option AppleRef :=
  Str.searchFrom appleRefAt url.

(** [/[?&]list=([a-zA-Z0-9_-]+)/] anchored at the start of [s]. *)
Definition listIdAt (s : string) : option string :=
  match s with
  | String c rest =>
      if Ascii.eqb c "?" || Ascii.eqb c "&" then
        match Str.stripPrefix "list=" rest with
        | Some rest1 =>
            match fst (Str.span Str.isListIdChar rest1) with
            | EmptyString => None
            | id => Some id
            end
        | None => None
        end
      else None
  | EmptyString => None
  end.

Definition parseYouTubeMusicUrl (url : string) : option string :=
  Str.searchFrom listIdAt url.

(* ====================================================================== *)
(** ** JavaScript values *)
(* ====================================================================== *)

(** What [JSON.parse] can produce, and [undefined] for a missing property.
    An object is the list of its own properties, keys distinct. *)
Inductive value : Type :=
| VUndefined
| VNull
| VBool (b : bool)
| VNum (z : Z)
| VStr (s : string)
| VArr (items : list value)
| VObj (fields : list (string * value)).

(** Synchronous evaluation either yields a value or raises. *)
Inductive Res (A : Type) : Type :=
| Ok (a : A)
| Throw.
Arguments Ok {A} a.
Arguments Throw {A}.

Definition bindRes {A B : Type} (r : Res A) (k : A -> Res B) : Res B :=
  match r with
  | Ok a => k a
  | Throw => Throw
  end.

Declare Scope res_scope.
Delimit Scope res_scope with res.
Notation "x <-? c ;; k" := (bindRes c (fun x => k))
  (at level 61, c at next level, right associativity) : res_scope.

Fixpoint mapRes {A B : Type} (f : A -> Res B) (l : list A) : Res (list B) :=
  match l with
  | [] => Ok []
  | a :: l' =>
      match f a with
      | Ok b =>
          match mapRes f l' with
          | Ok bs => Ok (b :: bs)
          | Throw => Throw
          end
      | Throw => Throw
      end
  end.

Module JS.

(** ToBoolean. *)
Definition truthy (v : value) : bool :=
  match v with
  | VUndefined | VNull => false
  | VBool b => b
  | VNum z => negb (z =? 0)%Z
  | VStr s => negb (String.eqb s "")
  | VArr _ | VObj _ => true
  end.

Definition nullish (v : value) : bool :=
  match v with
  | VUndefined | VNull => true
  | _ => false
  end.

(** [a || b]. *)
Definition or_ (a b : value) : value := if truthy a then a else b.

Fixpoint lookup (k : string) (fields : list (string * value)) : value :=
  match fields with
  | [] => VUndefined
  | (k', v) :: fields' => if String.eqb k k' then v else lookup k fields'
  end.

(** [v.k] for a [v] that is neither [null] nor [undefined]; of the
    properties the runtime adds to arrays and strings only [length] is read
    by the program. *)
Definition prop (v : value) (k : string) : value :=
  match v with
  | VObj fields => lookup k fields
  | VArr items =>
      if String.eqb k "length" then VNum (Z.of_nat (List.length items))
      else VUndefined
  | VStr s =>
      if String.eqb k "length" then VNum (Z.of_nat (String.length s))
      else VUndefined
  | _ => VUndefined
  end.

(** [v.k]: a TypeError on [null] and [undefined]. *)
Definition get (v : value) (k : string) : Res value :=
  if nullish v then Throw else Ok (prop v k).

(** [v?.k]. *)
Definition optGet (v : value) (k : string) : value :=
  if nullish v then VUndefined else prop v k.

(** [v?.[0]]. *)
Definition optIndex0 (v : value) : value :=
  match v with
  | VArr (x :: _) => x
  | VStr (String c _) => VStr (String c EmptyString)
  | VObj fields => lookup "0" fields
  | _ => VUndefined
  end.

(** [v > 0], for the [length] of an array or a string.  Where [length] is
    some other property of an object the source goes on to call [map] on
    that object and raises, which leaves the enclosing [try] the same way as
    a false test does. *)
Definition gt0 (v : value) : bool :=
  match v with
  | VNum z => (0 <? z)%Z
  | _ => false
  end.

(** [v.map(f)]: only an array has [map]. *)
Definition mapArray {B : Type} (f : value -> Res B) (v : value)
  : Res (list B) :=
  match v with
  | VArr items => mapRes f items
  | _ => Throw
  end.

Definition numToString (z : Z) : string :=
  DecimalString.NilZero.string_of_int (Z.to_int z).

Fixpoint join (sep : string) (parts : list string) : string :=
  match parts with
  | [] => EmptyString
  | [p] => p
  | p :: parts' => p ++ sep ++ join sep parts'
  end.

(** ToString, as a template literal applies it.  An array is joined with
    commas, [null] and [undefined] elements giving the empty string; an
    object prints as [[object Object]] (objects that carry a [toString] or
    [valueOf] entry of their own are outside the model). *)
Fixpoint toString (v : value) : string :=
  match v with
  | VUndefined => "undefined"
  | VNull => "null"
  | VBool true => "true"
  | VBool false => "false"
  | VNum z => numToString z
  | VStr s => s
  | VArr items =>
      join ","
        ((fix elems (l : list value) : list string :=
            match l with
            | [] => []
            | x :: l' =>
                (if nullish x then EmptyString else toString x) :: elems l'
            end) items)
  | VObj _ => "[object Object]"
  end.

End JS.

(* ====================================================================== *)
(** ** Types of the service and of its collaborators *)
(* ====================================================================== *)

(** TypeScript's types are erased: a field holds whatever the payload
    held. *)
Record ImportedTrack : Type := {
  title : value;
  artist : value;
  album : value;
  duration : value
}.

(** A catalog track, from [./hifi]. *)
Module MusicTrack.

Record t : Type := {
  id : value;
  title : value;
  artist : value;
  artistId : value;
  album : value;
  albumId : value;
  duration : value;
  coverArt : value
}.

End MusicTrack.

(** A search answer of [./hifi]; [tracks] may be missing. *)
Record SearchResults : Type := { foundTracks : option (list MusicTrack.t) }.

(** A stored track, from [./storage]. *)
Module PlaylistTrack.

Inductive Source : Type := qobuz | tidal.

Record t : Type := {
  id : value;
  source : Source;
  title : value;
  artist : value;
  artistId : value;
  album : value;
  albumId : value;
  duration : value;
  coverArt : value;
  addedAt : Z;
  originalTitle : value;
  originalArtist : value;
  matchConfidence : Z
}.

End PlaylistTrack.

Record ImportSource : Type := {
  platform : ImportPlatform;
  originalId : string;
  originalName : value
}.

(** A stored playlist, from [./storage]; [others] stands for the properties
    that the import never writes (identity, name, dates). *)
Module UserPlaylist.

Record t : Type := {
  others : list (string * value);
  tracks : list PlaylistTrack.t;
  coverArt : value;
  importSource : option ImportSource
}.

End UserPlaylist.

Record ImportResult : Type := {
  success : bool;
  playlist : option UserPlaylist.t;
  totalTracks : Z;
  matchedTracks : Z;
  unmatchedTracks : list ImportedTrack;
  error : option string
}.

Module Progress.

Inductive Stage : Type := fetching | matching | saving | done | error.

Record ImportProgress : Type := {
  stage : Stage;
  current : Z;
  total : Z;
  message : string
}.

End Progress.

Record PlaylistData : Type := {
  name : value;
  tracks : list ImportedTrack
}.

(* ====================================================================== *)
(** ** The world and the computations *)
(* ====================================================================== *)

Record Request : Type := {
  url : string;
  headers : list (string * string)
}.

(** A response: its [ok] flag and what [json()] and [text()] resolve to. *)
Record Response : Type := {
  ok : bool;
  json : Res value;
  text : Res string
}.

Inductive Event : Type :=
| EvFetch (r : Request)
| EvSearchQobuz (query : string)
| EvSearchTidal (query : string)
| EvProgress (p : Progress.ImportProgress)
| EvSleep (ms : Z)
| EvCreatePlaylist (name : value)
| EvUpdatePlaylist (pl : UserPlaylist.t).

Definition History : Type := list Event.

Record World : Type := {
  fetch : History -> Request -> Res Response;
  searchQobuzOnly : History -> string -> Res (option SearchResults);
  searchTidalOnly : History -> string -> Res (option SearchResults);
  createPlaylist : History -> value -> Res UserPlaylist.t;
  updatePlaylist : History -> UserPlaylist.t -> Res unit;
  Date_now : History -> Z;
  (** [JSON.parse]. *)
  JSON_parse : string -> Res value;
  (** [Math.floor(v / 1000)], with the conversions JavaScript applies to a
      [v] that is not a number. *)
  floorDiv1000 : value -> value
}.

Definition M (A : Type) : Type := History -> Res A * History.

Definition ret {A : Type} (a : A) : M A := fun h => (Ok a, h).

Definition bind {A B : Type} (m : M A) (k : A -> M B) : M B :=
  fun h =>
    match m h with
    | (Ok a, h') => k a h'
    | (Throw, h') => (Throw, h')
    end.

Declare Scope m_scope.
Delimit Scope m_scope with m.
Notation "x <- c ;; k" := (bind c (fun x => k))
  (at level 61, c at next level, right associativity) : m_scope.
Notation "c ;; k" := (bind c (fun _ => k))
  (at level 61, right associativity) : m_scope.

(** An event is appended to the history, then the world answers from the
    history as it was before the call. *)
Definition call {A : Type} (e : Event) (answer : History -> Res A) : M A :=
  fun h => (answer h, (h ++ [e])%list).

Definition lift {A : Type} (r : Res A) : M A := fun h => (r, h).

(** [try { body } catch { handler }]. *)
Definition tryCatch {A : Type} (body handler : M A) : M A :=
  fun h =>
    match body h with
    | (Ok a, h') => (Ok a, h')
    | (Throw, h') => handler h'
    end.

(* ====================================================================== *)
(** ** The service *)
(* ====================================================================== *)

(** [/<script[^>]*>Spotify\s*=\s*(\{.*?\});<\/script>/s] anchored at the
    start of [s]; the result is the captured group.  Each greedy class is
    followed by a character outside the class, so it takes its whole run. *)
Definition embedScriptAt (s : string) : option string :=
  match Str.stripPrefix "<script" s with
  | Some r0 =>
      let r1 := snd (Str.span (fun c => negb (Ascii.eqb c ">")) r0) in
      match Str.stripPrefix ">Spotify" r1 with
      | Some r2 =>
          match Str.stripPrefix "=" (snd (Str.span Str.isSpace r2)) with
          | Some r3 =>
              match Str.stripPrefix "{" (snd (Str.span Str.isSpace r3)) with
              | Some r4 =>
                  match Str.lazyUntil "};</script>" r4 with
                  | Some body => Some ("{" ++ body ++ "}")
                  | None => None
                  end
              | None => None
              end
          | None => None
          end
      | None => None
      end
  | None => None
  end.

Definition INVIDIOUS_INSTANCES : list string :=
  [ "https://invidious.io.lol";
    "https://inv.nadeko.net";
    "https://invidious.nerdvpn.de" ].

Definition platformName (p : ImportPlatform) : string :=
  match p with
  | spotify => "spotify"
  | apple => "apple"
  | youtube => "youtube"
  | unknown => "unknown"
  end.

(** The predicate of [.filter((t) => t.title && t.artist)]. *)
Definition keepTrack (t : ImportedTrack) : bool :=
  JS.truthy (title t) && JS.truthy (artist t).

(** The result literal shared by the failing returns. *)
Definition failed (total : Z) (unmatched : list ImportedTrack) (msg : string)
  : ImportResult :=
  {| success := false;
     playlist := None;
     totalTracks := total;
     matchedTracks := 0;
     unmatchedTracks := unmatched;
     error := Some msg |}.

Definition toPlaylistTrack (src : PlaylistTrack.Source) (confidence : Z)
    (m : MusicTrack.t) (track : ImportedTrack) (now : Z) : PlaylistTrack.t :=
  {| PlaylistTrack.id := MusicTrack.id m;
     PlaylistTrack.source := src;
     PlaylistTrack.title := MusicTrack.title m;
     PlaylistTrack.artist := MusicTrack.artist m;
     PlaylistTrack.artistId := MusicTrack.artistId m;
     PlaylistTrack.album := MusicTrack.album m;
     PlaylistTrack.albumId := MusicTrack.albumId m;
     PlaylistTrack.duration := MusicTrack.duration m;
     PlaylistTrack.coverArt := MusicTrack.coverArt m;
     PlaylistTrack.addedAt := now;
     PlaylistTrack.originalTitle := title track;
     PlaylistTrack.originalArtist := artist track;
     PlaylistTrack.matchConfidence := confidence |}.

(** [results?.tracks?.length] is truthy, and then [results.tracks[0]]. *)
Definition firstTrack (results : option SearchResults) : option MusicTrack.t :=
  match results with
  | Some {| foundTracks := Some (m :: _) |} => Some m
  | _ => None
  end.

Section Service.

Variable w : World.

Local Open Scope m_scope.

Definition doFetch (u : string) (hs : list (string * string)) : M Response :=
  let r := {| url := u; headers := hs |} in
  call (EvFetch r) (fun h => fetch w h r).

(** *** Spotify *)

Definition spotifyDownTrack (t : value) : Res ImportedTrack :=
  (t_title <-? JS.get t "title" ;;
   Ok {| title := JS.or_ t_title (JS.or_ (JS.prop t "name") (VStr ""));
         artist := JS.or_ (JS.prop t "artists")
                     (JS.or_ (JS.prop t "artist") (VStr ""));
         album := JS.or_ (JS.prop t "album") (VStr "");
         duration := JS.or_ (JS.prop t "durationSec")
                       (JS.or_ (JS.prop t "duration") (VNum 0)) |})%res.

Definition spotifyScraperTrack (item : value) : Res ImportedTrack :=
  (track <-? JS.get item "track" ;;
   Ok {| title := JS.or_ (JS.optGet track "name")
                    (JS.or_ (JS.prop item "name") (VStr ""));
         artist :=
           JS.or_ (JS.optGet (JS.optIndex0 (JS.optGet track "artists")) "name")
             (JS.or_
                (JS.optGet (JS.optIndex0 (JS.prop item "artists")) "name")
                (VStr ""));
         album := JS.or_ (JS.optGet (JS.optGet track "album") "name")
                    (JS.or_ (JS.optGet (JS.prop item "album") "name")
                       (VStr ""));
         duration :=
           floorDiv1000 w
             (JS.or_ (JS.optGet track "duration_ms")
                (JS.or_ (JS.prop item "duration_ms") (VNum 0))) |})%res.

Definition spotifyEmbedTrack (t : value) : Res ImportedTrack :=
  (t_name <-? JS.get t "name" ;;
   Ok {| title := JS.or_ t_name (VStr "");
         artist := JS.or_ (JS.optGet (JS.optIndex0 (JS.prop t "artists")) "name")
                     (VStr "");
         album := JS.or_ (JS.optGet (JS.prop t "album") "name") (VStr "");
         duration :=
           floorDiv1000 w (JS.or_ (JS.prop t "duration_ms") (VNum 0)) |})%res.

(** Each strategy is one [try] block of the source: [Some] is its [return],
    [None] is control falling out of the block. *)
Definition spotifyDownStrategy (playlistId : string)
  : M (option PlaylistData) :=
  tryCatch
    (metaResponse <-
       doFetch ("https://api.spotifydown.com/metadata/playlist/" ++ playlistId)
         [ ("Origin", "https://spotifydown.com");
           ("Referer", "https://spotifydown.com/") ] ;;
     if ok metaResponse then
       metaData <- lift (json metaResponse) ;;
       metaData_success <- lift (JS.get metaData "success") ;;
       let trackList := JS.prop metaData "trackList" in
       if JS.truthy metaData_success && JS.truthy trackList
          && JS.gt0 (JS.prop trackList "length")
       then
         mapped <- lift (JS.mapArray spotifyDownTrack trackList) ;;
         ret (Some {| name := JS.or_ (JS.prop metaData "title")
                                (VStr "Spotify Playlist");
                      tracks := filter keepTrack mapped |})
       else ret None
     else ret None)
    (ret None).

Definition spotifyScraperStrategy (playlistId : string)
  : M (option PlaylistData) :=
  tryCatch
    (response <-
       doFetch ("https://spotify-scraper.p.rapidapi.com/v1/playlist/tracks?playlistId="
                ++ playlistId)
         [ ("X-RapidAPI-Key", "demo");
           ("X-RapidAPI-Host", "spotify-scraper.p.rapidapi.com") ] ;;
     if ok response then
       data <- lift (json response) ;;
       data_tracks <- lift (JS.get data "tracks") ;;
       let items := JS.prop data_tracks "items" in
       if JS.truthy data_tracks && JS.truthy items
          && JS.gt0 (JS.prop items "length")
       then
         mapped <- lift (JS.mapArray spotifyScraperTrack items) ;;
         ret (Some {| name := JS.or_ (JS.prop data "name")
                                (VStr "Spotify Playlist");
                      tracks := filter keepTrack mapped |})
       else ret None
     else ret None)
    (ret None).

Definition spotifyEmbedStrategy (playlistId : string)
  : M (option PlaylistData) :=
  tryCatch
    (response <-
       doFetch ("https://open.spotify.com/embed/playlist/" ++ playlistId)
         [ ("User-Agent", "Mozilla/5.0") ] ;;
     if ok response then
       html <- lift (text response) ;;
       match Str.searchFrom embedScriptAt html with
       | Some script =>
           tryCatch
             (data <- lift (JSON_parse w script) ;;
              data_playlist <- lift (JS.get data "playlist") ;;
              let playlist_tracks := JS.optGet data_playlist "tracks" in
              if JS.truthy playlist_tracks then
                mapped <- lift (JS.mapArray spotifyEmbedTrack playlist_tracks) ;;
                ret (Some {| name := JS.or_ (JS.prop data_playlist "name")
                                       (VStr "Spotify Playlist");
                             tracks := filter keepTrack mapped |})
              else ret None)
             (ret None)
       | None => ret None
       end
     else ret None)
    (ret None).

Definition fetchSpotifyPlaylist (playlistId : string)
  : M (option PlaylistData) :=
  primary <- spotifyDownStrategy playlistId ;;
  match primary with
  | Some data => ret (Some data)
  | None =>
      fallback <- spotifyScraperStrategy playlistId ;;
      match fallback with
      | Some data => ret (Some data)
      | None =>
          lastResort <- spotifyEmbedStrategy playlistId ;;
          match lastResort with
          | Some data => ret (Some data)
          | None => ret None
          end
      end
  end.

(** *** Apple Music *)

Definition appleTrack (t : value) : Res ImportedTrack :=
  (attributes <-? JS.get t "attributes" ;;
   Ok {| title := JS.optGet attributes "name";
         artist := JS.optGet attributes "artistName";
         album := JS.optGet attributes "albumName";
         duration :=
           if JS.truthy (JS.optGet attributes "durationInMillis")
           then floorDiv1000 w (JS.prop attributes "durationInMillis")
           else VUndefined |})%res.

(** The array that the Apple Music fetcher maps:
    [playlist.relationships?.tracks?.data || []]. *)
Definition appleTrackData (playlist_ : value) : value :=
  JS.or_
    (JS.optGet (JS.optGet (JS.prop playlist_ "relationships") "tracks") "data")
    (VArr []).

Definition fetchAppleMusicPlaylist (storefront_ playlistId : string)
  : M (option PlaylistData) :=
  tryCatch
    (response <-
       doFetch ("https://music.apple.com/api/v1/catalog/" ++ storefront_
                ++ "/playlists/" ++ playlistId)
         [ ("User-Agent", "Mozilla/5.0");
           ("Origin", "https://music.apple.com") ] ;;
     if negb (ok response) then ret None
     else
       data <- lift (json response) ;;
       data_data <- lift (JS.get data "data") ;;
       let playlist_ := JS.optIndex0 data_data in
       if negb (JS.truthy playlist_) then ret None
       else
         mapped <- lift (JS.mapArray appleTrack (appleTrackData playlist_)) ;;
         ret (Some {| name := JS.or_
                                (JS.optGet (JS.prop playlist_ "attributes") "name")
                                (VStr "Apple Music Playlist");
                      tracks := mapped |}))
    (ret None).

(** *** YouTube Music *)

Definition youtubeTrack (v : value) : Res ImportedTrack :=
  (v_title <-? JS.get v "title" ;;
   Ok {| title := v_title;
         artist := JS.or_ (JS.prop v "author")
                     (JS.or_ (JS.prop v "authorId") (VStr "Unknown Artist"));
         album := VUndefined;
         duration := JS.prop v "lengthSeconds" |})%res.

(** The array that the YouTube Music fetcher maps: [data.videos || []]. *)
Definition youtubeVideos (data : value) : value :=
  JS.or_ (JS.prop data "videos") (VArr []).

(** One turn of the loop over the instances: [Some] is its [return], [None]
    is [continue]. *)
Definition fetchFromInstance (instance playlistId : string)
  : M (option PlaylistData) :=
  tryCatch
    (response <-
       doFetch (instance ++ "/api/v1/playlists/" ++ playlistId)
         [ ("User-Agent", "Mozilla/5.0") ] ;;
     if negb (ok response) then ret None
     else
       data <- lift (json response) ;;
       data_title <- lift (JS.get data "title") ;;
       mapped <- lift (JS.mapArray youtubeTrack (youtubeVideos data)) ;;
       ret (Some {| name := JS.or_ data_title (VStr "YouTube Music Playlist");
                    tracks := mapped |}))
    (ret None).

Fixpoint fetchFromInstances (instances : list string) (playlistId : string)
  : M (option PlaylistData) :=
  match instances with
  | [] => ret None
  | instance :: rest =>
      attempt <- fetchFromInstance instance playlistId ;;
      match attempt with
      | Some data => ret (Some data)
      | None => fetchFromInstances rest playlistId
      end
  end.

Definition fetchYouTubeMusicPlaylist (playlistId : string)
  : M (option PlaylistData) :=
  fetchFromInstances INVIDIOUS_INSTANCES playlistId.

(** *** Track matching *)

Definition dateNow : M Z := fun h => (Ok (Date_now w h), h).

Definition trackQuery (track : ImportedTrack) : string :=
  JS.toString (title track) ++ " " ++ JS.toString (artist track).

Definition matchTrack (track : ImportedTrack) : M (option PlaylistTrack.t) :=
  let query := trackQuery track in
  viaQobuz <-
    tryCatch
      (qobuzResults <-
         call (EvSearchQobuz query) (fun h => searchQobuzOnly w h query) ;;
       match firstTrack qobuzResults with
       | Some m =>
           now <- dateNow ;;
           ret (Some (toPlaylistTrack PlaylistTrack.qobuz 90 m track now))
       | None => ret None
       end)
      (ret None) ;;
  match viaQobuz with
  | Some matched => ret (Some matched)
  | None =>
      viaTidal <-
        tryCatch
          (tidalResults <-
             call (EvSearchTidal query) (fun h => searchTidalOnly w h query) ;;
           match firstTrack tidalResults with
           | Some m =>
               now <- dateNow ;;
               ret (Some (toPlaylistTrack PlaylistTrack.tidal 85 m track now))
           | None => ret None
           end)
          (ret None) ;;
      match viaTidal with
      | Some matched => ret (Some matched)
      | None => ret None
      end
  end.

(** *** The import *)

(** [onProgress?.(p)]: [onProgress] tells whether a callback was given; a
    call of the callback is an event, and the callback returns. *)
Definition report (onProgress : bool) (p : Progress.ImportProgress) : M unit :=
  if onProgress then call (EvProgress p) (fun _ => Ok tt) else ret tt.

Definition sleep (ms : Z) : M unit := call (EvSleep ms) (fun _ => Ok tt).

(** The [for] loop of the matching stage, from index [i] on; [len] is
    [playlistData.tracks.length] and [rest] the tracks from [i] on. *)
Fixpoint matchLoop (onProgress : bool) (len : Z) (i : Z)
    (rest : list ImportedTrack)
    (matchedTracks_ : list PlaylistTrack.t)
    (unmatchedTracks_ : list ImportedTrack)
  : M (list PlaylistTrack.t * list ImportedTrack) :=
  match rest with
  | [] => ret (matchedTracks_, unmatchedTracks_)
  | track :: rest' =>
      report onProgress
        {| Progress.stage := Progress.matching;
           Progress.current := i + 1;
           Progress.total := len;
           Progress.message := "Matching: " ++ JS.toString (title track) |} ;;
      matched <- matchTrack track ;;
      let '(matchedTracks', unmatchedTracks') :=
        match matched with
        | Some m => ((matchedTracks_ ++ [m])%list, unmatchedTracks_)
        | None => (matchedTracks_, (unmatchedTracks_ ++ [track])%list)
        end in
      (if (i <? len - 1)%Z then sleep 200 else ret tt) ;;
      matchLoop onProgress len (i + 1) rest' matchedTracks' unmatchedTracks'
  end.

(** The [switch] on the platform: an early result, or the identifier and
    what the fetcher returned. *)
Definition fetchByPlatform (platform_ : ImportPlatform) (url_ : string)
  : M (ImportResult + string * option PlaylistData) :=
  match platform_ with
  | spotify =>
      match parseSpotifyUrl url_ with
      | None => ret (inl (failed 0 [] "Invalid Spotify playlist URL"))
      | Some id_ =>
          playlistData <- fetchSpotifyPlaylist id_ ;;
          ret (inr (id_, playlistData))
      end
  | apple =>
      match parseAppleMusicUrl url_ with
      | None => ret (inl (failed 0 [] "Invalid Apple Music playlist URL"))
      | Some parsed =>
          playlistData <- fetchAppleMusicPlaylist (storefront parsed) (id parsed) ;;
          ret (inr (id parsed, playlistData))
      end
  | youtube =>
      match parseYouTubeMusicUrl url_ with
      | None => ret (inl (failed 0 [] "Invalid YouTube Music playlist URL"))
      | Some id_ =>
          playlistData <- fetchYouTubeMusicPlaylist id_ ;;
          ret (inr (id_, playlistData))
      end
  | unknown => ret (inr (EmptyString, None))
  end.

(** Everything after a fetch that gave at least one track. *)
Definition matchAndSave (onProgress : bool) (platform_ : ImportPlatform)
    (originalId_ : string) (playlistData : PlaylistData) : M ImportResult :=
  let total_ := Z.of_nat (List.length (tracks playlistData)) in
  report onProgress
    {| Progress.stage := Progress.matching;
       Progress.current := 0;
       Progress.total := total_;
       Progress.message := "Matching " ++ JS.numToString total_ ++ " tracks..." |} ;;
  lists <- matchLoop onProgress total_ 0 (tracks playlistData) [] [] ;;
  let '(matchedTracks_, unmatchedTracks_) := lists in
  match matchedTracks_ with
  | [] =>
      ret (failed total_ unmatchedTracks_
             "Could not match any tracks. Try a different playlist.")
  | first :: _ =>
      report onProgress
        {| Progress.stage := Progress.saving;
           Progress.current := 0;
           Progress.total := 0;
           Progress.message := "Saving playlist..." |} ;;
      newPlaylist <-
        call (EvCreatePlaylist (name playlistData))
          (fun h => createPlaylist w h (name playlistData)) ;;
      let updatedPlaylist :=
        {| UserPlaylist.others := UserPlaylist.others newPlaylist;
           UserPlaylist.tracks := matchedTracks_;
           UserPlaylist.coverArt :=
             JS.or_ (PlaylistTrack.coverArt first) VUndefined;
           UserPlaylist.importSource :=
             Some {| platform := platform_;
                     originalId := originalId_;
                     originalName := name playlistData |} |} in
      call (EvUpdatePlaylist updatedPlaylist)
        (fun h => updatePlaylist w h updatedPlaylist) ;;
      report onProgress
        {| Progress.stage := Progress.done;
           Progress.current := Z.of_nat (List.length matchedTracks_);
           Progress.total := total_;
           Progress.message := "Import complete!" |} ;;
      ret {| success := true;
             playlist := Some updatedPlaylist;
             totalTracks := total_;
             matchedTracks := Z.of_nat (List.length matchedTracks_);
             unmatchedTracks := unmatchedTracks_;
             error := None |}
  end.

Definition importPlaylist (url_ : string) (onProgress : bool)
  : M ImportResult :=
  let platform_ := detectPlatform url_ in
  match platform_ with
  | unknown =>
      ret (failed 0 []
             "Unsupported URL. Please use a Spotify, Apple Music, or YouTube Music playlist link.")
  | _ =>
      report onProgress
        {| Progress.stage := Progress.fetching;
           Progress.current := 0;
           Progress.total := 0;
           Progress.message :=
             "Fetching playlist from " ++ platformName platform_ ++ "..." |} ;;
      fetched <- fetchByPlatform platform_ url_ ;;
      match fetched with
      | inl early => ret early
      | inr (originalId_, playlistData) =>
          match playlistData with
          | Some data =>
              match tracks data with
              | [] =>
                  ret (failed 0 []
                         "Could not fetch playlist. Make sure it's a public playlist.")
              | _ :: _ => matchAndSave onProgress platform_ originalId_ data
              end
          | None =>
              ret (failed 0 []
                     "Could not fetch playlist. Make sure it's a public playlist.")
          end
      end
  end.

End Service.

(* ====================================================================== *)
(** ** Vocabulary of the statements *)
(* ====================================================================== *)

(** [url] contains [domain] up to the case of letters: some substring of
    [url] lower-cases to [domain]. *)
Definition containsCI (url_ domain : string) : Prop :=
  exists before mid after,
    url_ = before ++ mid ++ after /\ Str.toLowerCase mid = domain.

Definition spotifyDomain (url_ : string) : Prop :=
  containsCI url_ "spotify.com" \/ containsCI url_ "spotify.link".

Definition appleDomain (url_ : string) : Prop :=
  containsCI url_ "music.apple.com" \/ containsCI url_ "itunes.apple.com".

Definition youtubeDomain (url_ : string) : Prop :=
  containsCI url_ "music.youtube.com" \/ containsCI url_ "youtube.com/playlist".

(** A value that is missing ([undefined], [null]) or the empty string. *)
Definition missingOrEmpty (v : value) : Prop :=
  v = VUndefined \/ v = VNull \/ v = VStr "".

(** The [current] counters of the progress events of the matching stage, in
    the order of emission. *)
Definition matchingCurrents (evs : list Event) : list Z :=
  flat_map
    (fun e =>
       match e with
       | EvProgress p =>
           match Progress.stage p with
           | Progress.matching => [Progress.current p]
           | _ => []
           end
       | _ => []
       end)
    evs.

Definition progressEvents (evs : list Event) : list Progress.ImportProgress :=
  flat_map (fun e => match e with EvProgress p => [p] | _ => [] end) evs.

(** The URLs requested, in order. *)
Definition fetchedUrls (evs : list Event) : list string :=
  flat_map (fun e => match e with EvFetch r => [url r] | _ => [] end) evs.

Definition isFetch (e : Event) : bool :=
  match e with EvFetch _ => true | _ => false end.

Definition isSearch (e : Event) : bool :=
  match e with EvSearchQobuz _ | EvSearchTidal _ => true | _ => false end.

(** What the save stage does: its progress event and the two calls of the
    playlist store. *)
Definition isSave (e : Event) : bool :=
  match e with
  | EvCreatePlaylist _ | EvUpdatePlaylist _ => true
  | EvProgress p =>
      match Progress.stage p with
      | Progress.saving | Progress.done => true
      | _ => false
      end
  | _ => false
  end.

(** The events of the matching loop: progress of the matching stage, catalog
    searches and pauses. *)
Definition isMatching (e : Event) : bool :=
  match e with
  | EvSearchQobuz _ | EvSearchTidal _ | EvSleep _ => true
  | EvProgress p =>
      match Progress.stage p with
      | Progress.matching => true
      | _ => false
      end
  | _ => false
  end.

(** The integers [from + 1], ..., [from + n]. *)
Fixpoint countFrom (from : Z) (n : nat) : list Z :=
  match n with
  | O => []
  | S n' => (from + 1)%Z :: countFrom (from + 1) n'
  end.

(** The three requests of the Spotify fetcher. *)
Definition spotifyDownRequest (playlistId : string) : Request :=
  {| url := "https://api.spotifydown.com/metadata/playlist/" ++ playlistId;
     headers := [ ("Origin", "https://spotifydown.com");
                  ("Referer", "https://spotifydown.com/") ] |}.

Definition spotifyScraperRequest (playlistId : string) : Request :=
  {| url := "https://spotify-scraper.p.rapidapi.com/v1/playlist/tracks?playlistId="
            ++ playlistId;
     headers := [ ("X-RapidAPI-Key", "demo");
                  ("X-RapidAPI-Host", "spotify-scraper.p.rapidapi.com") ] |}.

Definition spotifyEmbedRequest (playlistId : string) : Request :=
  {| url := "https://open.spotify.com/embed/playlist/" ++ playlistId;
     headers := [ ("User-Agent", "Mozilla/5.0") ] |}.

Definition appleRequest (storefront_ playlistId : string) : Request :=
  {| url := "https://music.apple.com/api/v1/catalog/" ++ storefront_
            ++ "/playlists/" ++ playlistId;
     headers := [ ("User-Agent", "Mozilla/5.0");
                  ("Origin", "https://music.apple.com") ] |}.

Definition invidiousRequest (instance playlistId : string) : Request :=
  {| url := instance ++ "/api/v1/playlists/" ++ playlistId;
     headers := [ ("User-Agent", "Mozilla/5.0") ] |}.

(** A search answer that carries at least one track, the first being [m]. *)
Definition answers (reply : Res (option SearchResults)) (m : MusicTrack.t)
  : Prop :=
  exists others_, reply = Ok (Some {| foundTracks := Some (m :: others_) |}).

(** A search that raised or came back without any track. *)
Definition silent (reply : Res (option SearchResults)) : Prop :=
  forall m, ~ answers reply m.

(** The progress event that opens the fetch stage. *)
Definition fetchingEvent (platform_ : ImportPlatform) : Event :=
  EvProgress
    {| Progress.stage := Progress.fetching;
       Progress.current := 0;
       Progress.total := 0;
       Progress.message :=
         "Fetching playlist from " ++ platformName platform_ ++ "..." |}.

(** The history when the fetcher is called: a supplied callback has seen
    the fetch stage open. *)
Definition atFetch (onProgress : bool) (platform_ : ImportPlatform)
    (h : History) : History :=
  (h ++ (if onProgress then [fetchingEvent platform_] else []))%list.

(** The messages of the returns that precede the matching stage. *)
Definition earlyErrors : list string :=
  [ "Unsupported URL. Please use a Spotify, Apple Music, or YouTube Music playlist link.";
    "Invalid Spotify playlist URL";
    "Invalid Apple Music playlist URL";
    "Invalid YouTube Music playlist URL";
    "Could not fetch playlist. Make sure it's a public playlist." ].

(** Every character of [s] is of class [p]. *)
Fixpoint allChars (p : ascii -> bool) (s : string) : bool :=
  match s with
  | EmptyString => true
  | String c s' => p c && allChars p s'
  end.

(** [s] is empty or starts with a character outside class [p]: a run of
    [p] cannot go on into [s]. *)
Definition stopsAt (p : ascii -> bool) (s : string) : bool :=
  match s with
  | EmptyString => true
  | String c _ => negb (p c)
  end.

Definition notSlash (c : ascii) : bool := negb (Ascii.eqb c "/").

(** The pauses of a history, in milliseconds. *)
Definition sleepsOf (evs : list Event) : list Z :=
  flat_map (fun e => match e with EvSleep ms => [ms] | _ => [] end) evs.

(** The queries sent to each catalog, in order. *)
Definition qobuzQueries (evs : list Event) : list string :=
  flat_map (fun e => match e with EvSearchQobuz q => [q] | _ => [] end) evs.

Definition tidalQueries (evs : list Event) : list string :=
  flat_map (fun e => match e with EvSearchTidal q => [q] | _ => [] end) evs.

(** The stages of the progress events, in order. *)
Definition stagesOf (evs : list Event) : list Progress.Stage :=
  map Progress.stage (progressEvents evs).

(** What identifies the source track: on the imported track, and as kept on
    the stored track. *)
Definition keyOf (track : ImportedTrack) : value * value :=
  (title track, artist track).

Definition provenance (m : PlaylistTrack.t) : value * value :=
  (PlaylistTrack.originalTitle m, PlaylistTrack.originalArtist m).

(** The elements of [l] whose flag is [b], in order. *)
Fixpoint select {A : Type} (b : bool) (flags : list bool) (l : list A)
  : list A :=
  match flags, l with
  | f :: flags', a :: l' =>
      if Bool.eqb f b then a :: select b flags' l' else select b flags' l'
  | _, _ => []
  end.

(** A stored track scored as its catalog is: 90 from Qobuz, 85 from
    Tidal. *)
Definition scoredBySource (m : PlaylistTrack.t) : Prop :=
  (PlaylistTrack.source m = PlaylistTrack.qobuz /\
   PlaylistTrack.matchConfidence m = 90%Z) \/
  (PlaylistTrack.source m = PlaylistTrack.tidal /\
   PlaylistTrack.matchConfidence m = 85%Z).

(** The pauses of the matching loop entered at index [i] with [n] tracks
    left, [len] being the length of the whole list: one pause of 200 ms
    after each track but the last of the list. *)
Fixpoint pausesFrom (len i : Z) (n : nat) : list Z :=
  match n with
  | O => []
  | S n' =>
      (if (i <? len - 1)%Z then [200%Z] else []) ++ pausesFrom len (i + 1) n'
  end.

(** [onProgress?.(p)] as a list of events. *)
Definition announce (onProgress : bool) (p : Progress.ImportProgress)
  : list Event :=
  if onProgress then [EvProgress p] else [].

Definition matchingOpens (total_ : Z) : Progress.ImportProgress :=
  {| Progress.stage := Progress.matching;
     Progress.current := 0;
     Progress.total := total_;
     Progress.message := "Matching " ++ JS.numToString total_ ++ " tracks..." |}.

Definition savingOpens : Progress.ImportProgress :=
  {| Progress.stage := Progress.saving;
     Progress.current := 0;
     Progress.total := 0;
     Progress.message := "Saving playlist..." |}.

Definition importDone (matched_ total_ : Z) : Progress.ImportProgress :=
  {| Progress.stage := Progress.done;
     Progress.current := matched_;
     Progress.total := total_;
     Progress.message := "Import complete!" |}.

(** The playlist that the import hands to [updatePlaylist]: the created
    playlist with its tracks, cover art and import source replaced. *)
Definition updatedPlaylistOf (newPlaylist : UserPlaylist.t)
    (matched : list PlaylistTrack.t) (platform_ : ImportPlatform)
    (id_ : string) (data : PlaylistData) : UserPlaylist.t :=
  {| UserPlaylist.others := UserPlaylist.others newPlaylist;
     UserPlaylist.tracks := matched;
     UserPlaylist.coverArt :=
       match matched with
       | first :: _ => JS.or_ (PlaylistTrack.coverArt first) VUndefined
       | [] => VUndefined
       end;
     UserPlaylist.importSource :=
       Some {| platform := platform_;
               originalId := id_;
               originalName := name data |} |}.

(** What one run of the matching loop over [rest] shows: the two lists
    split [rest] in order, the stored tracks keep their provenance and are
    scored by source, every track is looked up once in Qobuz in the order of
    the list, and the loop pauses between the tracks. *)
Definition loopTrace (w : World) (onProgress : bool) (len i : Z)
    (rest : list ImportedTrack) (matched : list PlaylistTrack.t)
    (unmatched : list ImportedTrack) (evs : list Event) : Prop :=
  (exists flags,
     List.length flags = List.length rest /\
     unmatched = select false flags rest /\
     map provenance matched = map keyOf (select true flags rest)) /\
  Forall scoredBySource matched /\
  qobuzQueries evs = map trackQuery rest /\
  sleepsOf evs = pausesFrom len i (List.length rest) /\
  stagesOf evs
  = (if onProgress then repeat Progress.matching (List.length rest) else []) /\
  Forall (fun e => isMatching e = true) evs /\
  ((forall h q, exists c, answers (searchQobuzOnly w h q) c) ->
   List.length matched = List.length rest /\ unmatched = [] /\
   Forall (fun m => PlaylistTrack.source m = PlaylistTrack.qobuz /\
                    PlaylistTrack.matchConfidence m = 90%Z) matched /\
   tidalQueries evs = []).

(** The calls of the playlist store, in order. *)
Definition storeCalls (evs : list Event) : list Event :=
  filter (fun e => match e with
                   | EvCreatePlaylist _ | EvUpdatePlaylist _ => true
                   | _ => false
                   end) evs.

(** The failure that the import returns before the matching stage. *)
Definition earlyFailure (msg : string) : ImportResult :=
  {| success := false;
     playlist := None;
     totalTracks := 0;
     matchedTracks := 0;
     unmatchedTracks := [];
     error := Some msg |}.

(* ====================================================================== *)
(** ** Sample worlds *)
(* ====================================================================== *)

(** Concrete worlds on which the service is run further down. *)
Module Sample.

(** The double quote. *)
Definition dq : string := String (ascii_of_nat 34) EmptyString.

Definition newPlaylist (name_ : value) : UserPlaylist.t :=
  {| UserPlaylist.others := [("id", VStr "playlist-1"); ("name", name_)];
     UserPlaylist.tracks := [];
     UserPlaylist.coverArt := VUndefined;
     UserPlaylist.importSource := None |}.

(** No network and no catalog; the store and the clock work. *)
Definition offline : World :=
  {| fetch := fun _ _ => Throw;
     searchQobuzOnly := fun _ _ => Throw;
     searchTidalOnly := fun _ _ => Throw;
     createPlaylist := fun _ name_ => Ok (newPlaylist name_);
     updatePlaylist := fun _ _ => Ok tt;
     Date_now := fun h => (1700000000000 + Z.of_nat (List.length h))%Z;
     JSON_parse := fun _ => Throw;
     floorDiv1000 :=
       fun v => match v with VNum z => VNum (z / 1000) | _ => v end |}.

Definition withFetch (f : History -> Request -> Res Response) (w : World)
  : World :=
  {| fetch := f;
     searchQobuzOnly := searchQobuzOnly w;
     searchTidalOnly := searchTidalOnly w;
     createPlaylist := createPlaylist w;
     updatePlaylist := updatePlaylist w;
     Date_now := Date_now w;
     JSON_parse := JSON_parse w;
     floorDiv1000 := floorDiv1000 w |}.

Definition withCatalog
    (q t : History -> string -> Res (option SearchResults)) (w : World)
  : World :=
  {| fetch := fetch w;
     searchQobuzOnly := q;
     searchTidalOnly := t;
     createPlaylist := createPlaylist w;
     updatePlaylist := updatePlaylist w;
     Date_now := Date_now w;
     JSON_parse := JSON_parse w;
     floorDiv1000 := floorDiv1000 w |}.

Definition withParser (p : string -> Res value) (w : World) : World :=
  {| fetch := fetch w;
     searchQobuzOnly := searchQobuzOnly w;
     searchTidalOnly := searchTidalOnly w;
     createPlaylist := createPlaylist w;
     updatePlaylist := updatePlaylist w;
     Date_now := Date_now w;
     JSON_parse := p;
     floorDiv1000 := floorDiv1000 w |}.

Definition jsonResponse (body : value) : Response :=
  {| ok := true; json := Ok body; text := Throw |}.

Definition htmlResponse (body : string) : Response :=
  {| ok := true; json := Throw; text := Ok body |}.

Definition catalogTrack : MusicTrack.t :=
  {| MusicTrack.id := VStr "c-1";
     MusicTrack.title := VStr "Song A";
     MusicTrack.artist := VStr "Band A";
     MusicTrack.artistId := VStr "a-1";
     MusicTrack.album := VStr "Album A";
     MusicTrack.albumId := VStr "al-1";
     MusicTrack.duration := VNum 180;
     MusicTrack.coverArt := VStr "https://img.example/c-1.jpg" |}.

Definition found (l : list MusicTrack.t) : Res (option SearchResults) :=
  Ok (Some {| foundTracks := Some l |}).

Definition songA : ImportedTrack :=
  {| title := VStr "Song A";
     artist := VStr "Band A";
     album := VUndefined;
     duration := VNum 180 |}.

(** *** YouTube Music: a playlist of one video *)

Definition youtubeUrl : string :=
  "https://music.youtube.com/playlist?list=PLxyz".

Definition oneVideo : value :=
  VObj [ ("title", VStr "Road mix");
         ("videos",
          VArr [ VObj [ ("title", VStr "Song A");
                        ("author", VStr "Band A");
                        ("lengthSeconds", VNum 180) ] ]) ].

(** The first Invidious instance answers; no catalog. *)
Definition oneVideoNoCatalog : World :=
  withFetch (fun _ _ => Ok (jsonResponse oneVideo)) offline.

(** The high-trust catalog knows the song. *)
Definition oneVideoQobuz : World :=
  withCatalog (fun _ _ => found [catalogTrack]) (fun _ _ => Throw)
    oneVideoNoCatalog.

(** Only the fallback catalog knows the song. *)
Definition oneVideoTidal : World :=
  withCatalog (fun _ _ => found []) (fun _ _ => found [catalogTrack])
    oneVideoNoCatalog.

(** A video without a title. *)
Definition untitledVideo : value :=
  VObj [ ("title", VStr "Road mix");
         ("videos", VArr [ VObj [ ("author", VStr "Band A") ] ]) ].

Definition untitledVideoWorld : World :=
  withFetch (fun _ _ => Ok (jsonResponse untitledVideo)) offline.

(** *** Apple Music: a playlist whose only track has no name *)

Definition unnamedAppleTrack : value :=
  VObj [ ("data",
          VArr [ VObj [ ("attributes", VObj [ ("name", VStr "Apple mix") ]);
                        ("relationships",
                         VObj [ ("tracks",
                                 VObj [ ("data",
                                         VArr [ VObj [ ("attributes",
                                                        VObj [ ("artistName",
                                                                VStr "Band A") ]) ] ]) ]) ]) ] ]) ].

Definition unnamedAppleWorld : World :=
  withFetch (fun _ _ => Ok (jsonResponse unnamedAppleTrack)) offline.

(** *** Spotify *)

Definition spotifyUrl : string :=
  "https://open.spotify.com/playlist/37i9dQZF1DXcBWIGoYBM5M".

Definition shortLink : string := "https://spotify.link/abc123".

(** The metadata endpoint lists two tracks, the second without a title. *)
Definition twoTracks : value :=
  VObj [ ("success", VBool true);
         ("title", VStr "Road mix");
         ("trackList",
          VArr [ VObj [ ("title", VStr "Song A"); ("artists", VStr "Band A") ];
                 VObj [ ("title", VStr ""); ("artists", VStr "Nobody") ] ]) ].

Definition twoTracksWorld : World :=
  withFetch (fun _ _ => Ok (jsonResponse twoTracks)) offline.

(** The metadata endpoint lists one track, which has no title. *)
Definition untitledTrack : value :=
  VObj [ ("success", VBool true);
         ("title", VStr "Road mix");
         ("trackList", VArr [ VObj [ ("artists", VStr "Nobody") ] ]) ].

Definition untitledTrackWorld : World :=
  withFetch (fun _ _ => Ok (jsonResponse untitledTrack)) offline.

(** The script of the embed page: the text
    [{"playlist":{"tracks":[]}}], a playlist with an empty track list. *)
Definition emptyEmbedScript : string :=
  "{" ++ dq ++ "playlist" ++ dq ++ ":{" ++ dq ++ "tracks" ++ dq ++ ":[]}}".

Definition emptyEmbedPage : string :=
  "<html><script>Spotify = " ++ emptyEmbedScript ++ ";</script></html>".

Definition emptyEmbedData : value :=
  VObj [ ("playlist", VObj [ ("tracks", VArr []) ]) ].

(** The two API endpoints are down; the embed page is served and shows an
    empty playlist. *)
Definition emptyEmbedWorld : World :=
  withParser
    (fun s => if String.eqb s emptyEmbedScript then Ok emptyEmbedData else Throw)
    (withFetch
       (fun _ r =>
          if Str.startsWith "https://open.spotify.com/embed/playlist/" (url r)
          then Ok (htmlResponse emptyEmbedPage)
          else Throw)
       offline).

End Sample.

(* ====================================================================== *)
(** ** Proof automation *)
(* ====================================================================== *)

(** Case analysis on whatever the computation inspects next. *)
Ltac branch :=
  match goal with
  | |- context [match ?x with _ => _ end] =>
      lazymatch x with
      | context [match _ with _ => _ end] => fail
      | _ => destruct x eqn:?; cbv beta iota zeta
      end
  end.

Ltac unfoldM :=
  unfold doFetch, dateNow, report, sleep;
  unfold bind, ret, call, lift, tryCatch;
  cbv beta iota zeta.


(** Further sample worlds. *)
Module Sample2.

(** The catalog knows the song, and the store fails when the playlist is
    updated. *)
Definition updateFails : World :=
  {| fetch := fetch Sample.oneVideoQobuz;
     searchQobuzOnly := searchQobuzOnly Sample.oneVideoQobuz;
     searchTidalOnly := searchTidalOnly Sample.oneVideoQobuz;
     createPlaylist := createPlaylist Sample.oneVideoQobuz;
     updatePlaylist := fun _ _ => Throw;
     Date_now := Date_now Sample.oneVideoQobuz;
     JSON_parse := JSON_parse Sample.oneVideoQobuz;
     floorDiv1000 := floorDiv1000 Sample.oneVideoQobuz |}.

(** A playlist of three videos, of which the catalogs know the first (Qobuz)
    and the third (Tidal only). *)
Definition threeVideos : value :=
  VObj [ ("title", VStr "Road mix");
         ("videos",
          VArr [ VObj [ ("title", VStr "Song A"); ("author", VStr "Band A") ];
                 VObj [ ("title", VStr "Song B"); ("author", VStr "Band B") ];
                 VObj [ ("title", VStr "Song C"); ("author", VStr "Band C") ] ]) ].

Definition threeVideosWorld : World :=
  Sample.withCatalog
    (fun _ q => if String.eqb q "Song A Band A"
                then Sample.found [Sample.catalogTrack] else Sample.found [])
    (fun _ q => if String.eqb q "Song C Band C"
                then Sample.found [Sample.catalogTrack] else Throw)
    (Sample.withFetch (fun _ _ => Ok (Sample.jsonResponse threeVideos))
       Sample.offline).

Definition threeTracks : list ImportedTrack :=
  [ {| title := VStr "Song A"; artist := VStr "Band A";
       album := VUndefined; duration := VUndefined |};
    {| title := VStr "Song B"; artist := VStr "Band B";
       album := VUndefined; duration := VUndefined |};
    {| title := VStr "Song C"; artist := VStr "Band C";
       album := VUndefined; duration := VUndefined |} ].

Definition threeVideosFetched : History :=
  [ fetchingEvent youtube;
    EvFetch (invidiousRequest "https://invidious.io.lol" "PLxyz") ].

End Sample2.

(* ====================================================================== *)
(** * Properties *)
(* ====================================================================== *)

(* ====================================================================== *)
(** ** Strings and URL classification *)
(* ====================================================================== *)

Lemma startsWith_iff (p s : string) :
  Str.startsWith p s = true <-> exists r, s = p ++ r.
Proof.
  revert s; induction p as [|a p IH]; intros s; simpl.
  - split; [intros _; now exists s | reflexivity].
  - destruct s as [|b s].
    + split; [discriminate | intros [r Hr]; discriminate].
    + rewrite andb_true_iff, Ascii.eqb_eq, IH. split.
      * intros [-> [r ->]]. now exists r.
      * intros [r Hr]. inversion Hr. split; [reflexivity | now exists r].
Qed.

Lemma includes_iff (s sub : string) :
  Str.includes s sub = true <-> exists a b, s = a ++ sub ++ b.
Proof.
  induction s as [|c s IH]; simpl; rewrite orb_true_iff, startsWith_iff.
  - split.
    + intros [[r Hr]|H]; [|discriminate]. now exists "", r.
    + intros ([|x a] & b & H); [left; now exists b | discriminate].
  - rewrite IH. split.
    + intros [[r Hr]|(a & b & H)].
      * now exists "", r.
      * exists (String c a), b. simpl. now rewrite H.
    + intros ([|x a] & b & H).
      * left. now exists b.
      * right. exists a, b. now inversion H.
Qed.

Lemma toLowerCase_app (a b : string) :
  Str.toLowerCase (a ++ b) = Str.toLowerCase a ++ Str.toLowerCase b.
Proof. induction a as [|c a IH]; simpl; [reflexivity | now rewrite IH]. Qed.

Lemma toLowerCase_split (u a b : string) :
  Str.toLowerCase u = a ++ b ->
  exists a' b', u = a' ++ b' /\ Str.toLowerCase a' = a /\ Str.toLowerCase b' = b.
Proof.
  revert u; induction a as [|c a IH]; intros u H; simpl in H.
  - now exists "", u.
  - destruct u as [|d u]; simpl in H; [discriminate|].
    inversion H as [[Hc Hu]].
    destruct (IH u Hu) as (a' & b' & -> & Ha & Hb).
    exists (String d a'), b'. simpl. now rewrite Ha, Hb.
Qed.

(** What the source tests, [lowerUrl.includes(domain)], is containment up to
    case. *)
Lemma includes_lower_iff (url_ domain : string) :
  Str.includes (Str.toLowerCase url_) domain = true <-> containsCI url_ domain.
Proof.
  rewrite includes_iff. split.
  - intros (a & b & H).
    apply toLowerCase_split in H as (a' & r & -> & _ & Hr).
    apply toLowerCase_split in Hr as (m & b' & -> & Hm & _).
    now exists a', m, b'.
  - intros (a & m & b & -> & Hm).
    exists (Str.toLowerCase a), (Str.toLowerCase b).
    now rewrite !toLowerCase_app, Hm.
Qed.

Lemma either_includes (url_ d1 d2 : string) :
  Str.includes (Str.toLowerCase url_) d1 || Str.includes (Str.toLowerCase url_) d2
  = true <-> containsCI url_ d1 \/ containsCI url_ d2.
Proof. now rewrite orb_true_iff, !includes_lower_iff. Qed.

(** C4. [detectPlatform] is a total function: a URL that contains
    [spotify.com] or [spotify.link], whatever the case of its letters, is
    classified [spotify]; failing that, one that contains [music.apple.com]
    or [itunes.apple.com] is [apple]; failing that, one that contains
    [music.youtube.com] or [youtube.com/playlist] is [youtube]; every other
    string is [unknown]. *)
Theorem detectPlatform_by_priority (url_ : string) :
  (spotifyDomain url_ -> detectPlatform url_ = spotify) /\
  (~ spotifyDomain url_ -> appleDomain url_ -> detectPlatform url_ = apple) /\
  (~ spotifyDomain url_ -> ~ appleDomain url_ -> youtubeDomain url_ ->
   detectPlatform url_ = youtube) /\
  (~ spotifyDomain url_ -> ~ appleDomain url_ -> ~ youtubeDomain url_ ->
   detectPlatform url_ = unknown).
Proof.
  unfold spotifyDomain, appleDomain, youtubeDomain, detectPlatform.
  cbv zeta.
  rewrite <- !either_includes.
  destruct (Str.includes (Str.toLowerCase url_) "spotify.com"
            || Str.includes (Str.toLowerCase url_) "spotify.link");
  destruct (Str.includes (Str.toLowerCase url_) "music.apple.com"
            || Str.includes (Str.toLowerCase url_) "itunes.apple.com");
  destruct (Str.includes (Str.toLowerCase url_) "music.youtube.com"
            || Str.includes (Str.toLowerCase url_) "youtube.com/playlist");
  repeat split; intros; try reflexivity; try congruence;
  exfalso; auto.
Qed.

Lemma detectPlatform_by_priority_witness :
  spotifyDomain "https://Open.Spotify.COM/playlist/abc" /\
  detectPlatform "https://Open.Spotify.COM/playlist/abc" = spotify.
Proof.
  assert (H : spotifyDomain "https://Open.Spotify.COM/playlist/abc").
  { left. exists "https://Open.", "Spotify.COM", "/playlist/abc".
    split; reflexivity. }
  split; [exact H|].
  exact (proj1 (detectPlatform_by_priority
                  "https://Open.Spotify.COM/playlist/abc") H).
Defined.

(** The parsers on the URLs of the documentation. *)
Example parseSpotifyUrl_open :
  parseSpotifyUrl "https://open.spotify.com/playlist/37i9dQZF1DXcBWIGoYBM5M"
  = Some "37i9dQZF1DXcBWIGoYBM5M".
Proof. reflexivity. Qed.

Example parseAppleMusicUrl_us :
  parseAppleMusicUrl "https://music.apple.com/us/playlist/foo/pl.abc123"
  = Some {| storefront := "us"; id := "pl.abc123" |}.
Proof. reflexivity. Qed.

Example parseAppleMusicUrl_three_letters :
  parseAppleMusicUrl "https://music.apple.com/usa/playlist/foo/pl.abc123" = None.
Proof. reflexivity. Qed.

Example parseYouTubeMusicUrl_list :
  parseYouTubeMusicUrl "https://music.youtube.com/playlist?list=PLxyz"
  = Some "PLxyz".
Proof. reflexivity. Qed.

Example detectPlatform_mixed_case :
  detectPlatform "HTTPS://Open.Spotify.COM/playlist/abc" = spotify.
Proof. reflexivity. Qed.

(* ====================================================================== *)
(** ** Running computations *)
(* ====================================================================== *)

Local Open Scope list_scope.

Lemma app_cons_assoc {A : Type} (h : list A) (e : A) (evs : list A) :
  ((h ++ [e]) ++ evs = h ++ e :: evs)%list.
Proof. now rewrite <- app_assoc. Qed.

Lemma mapArray_array {B : Type} (f : value -> Res B) (v : value) (l : list B) :
  JS.mapArray f v = Ok l -> exists raw, v = VArr raw /\ mapRes f raw = Ok l.
Proof. destruct v; simpl; try discriminate. intros H. eauto. Qed.

Lemma mapRes_length {A B : Type} (f : A -> Res B) (l : list A) (l' : list B) :
  mapRes f l = Ok l' -> List.length l' = List.length l.
Proof.
  revert l'; induction l as [|a l IH]; simpl; intros l' H.
  - now inversion H.
  - destruct (f a); [|discriminate].
    destruct (mapRes f l); [|discriminate].
    inversion H. simpl. now rewrite (IH _ eq_refl).
Qed.

Lemma nonempty_length (v : value) (raw : list value) :
  v = VArr raw -> JS.gt0 (JS.prop v "length") = true -> raw <> [].
Proof. intros -> H ->. discriminate. Qed.

Lemma keepTrack_present (t : ImportedTrack) :
  keepTrack t = true ->
  ~ missingOrEmpty (title t) /\ ~ missingOrEmpty (artist t).
Proof.
  unfold keepTrack, missingOrEmpty. rewrite andb_true_iff. intros [Ht Ha].
  split; intros [E|[E|E]]; rewrite E in *; discriminate.
Qed.

Lemma filter_keepTrack_present (l : list ImportedTrack) :
  Forall (fun t => ~ missingOrEmpty (title t) /\ ~ missingOrEmpty (artist t))
    (filter keepTrack l).
Proof.
  apply Forall_forall. intros t Ht.
  apply filter_In in Ht as [_ Ht]. now apply keepTrack_present.
Qed.

(* ====================================================================== *)
(** ** The Spotify fetcher *)
(* ====================================================================== *)

(** A strategy makes one request and never raises. *)
Lemma spotifyDownStrategy_run (w : World) (playlistId : string) (h : History) :
  exists r, spotifyDownStrategy w playlistId h = (Ok r, (h ++ [EvFetch (spotifyDownRequest playlistId)])%list).
Proof.
  unfold spotifyDownStrategy. unfoldM. fold (spotifyDownRequest playlistId).
  repeat branch; eauto.
Qed.

Lemma spotifyScraperStrategy_run (w : World) (playlistId : string)
    (h : History) :
  exists r,
    spotifyScraperStrategy w playlistId h = (Ok r, (h ++ [EvFetch (spotifyScraperRequest playlistId)])%list).
Proof.
  unfold spotifyScraperStrategy. unfoldM. fold (spotifyScraperRequest playlistId).
  repeat branch; eauto.
Qed.

Lemma spotifyEmbedStrategy_run (w : World) (playlistId : string)
    (h : History) :
  exists r,
    spotifyEmbedStrategy w playlistId h = (Ok r, (h ++ [EvFetch (spotifyEmbedRequest playlistId)])%list).
Proof.
  unfold spotifyEmbedStrategy. unfoldM. fold (spotifyEmbedRequest playlistId).
  repeat branch; eauto.
Qed.

(** When the first strategy returns a playlist, the metadata endpoint
    answered with a non-empty array of tracks. *)
Lemma spotifyDownStrategy_accepts (w : World) (playlistId : string)
    (h h' : History) (data : PlaylistData) :
  spotifyDownStrategy w playlistId h = (Ok (Some data), h') ->
  exists response metaData raw mapped,
    fetch w h (spotifyDownRequest playlistId) = Ok response /\ ok response = true /\
    json response = Ok metaData /\
    JS.prop metaData "trackList" = VArr raw /\ raw <> [] /\
    mapRes spotifyDownTrack raw = Ok mapped /\
    tracks data = filter keepTrack mapped.
Proof.
  unfold spotifyDownStrategy. unfoldM. fold (spotifyDownRequest playlistId).
  repeat branch; intros H; inversion H; subst; clear H.
  repeat match goal with
         | E : (_, _) = (_, _) |- _ => inversion E; subst; clear E
         end.
  match goal with
  | E : JS.mapArray _ _ = Ok _ |- _ =>
      apply mapArray_array in E as (raw & Hraw & Hmap)
  end.
  match goal with
  | E : (_ && _ && _)%bool = true |- _ =>
      apply andb_true_iff in E as [_ Hlen]
  end.
  do 4 eexists. repeat split; eauto.
  eapply nonempty_length; [exact Hraw | exact Hlen].
Qed.

(** The same for the second strategy and the scraping endpoint. *)
Lemma spotifyScraperStrategy_accepts (w : World) (playlistId : string)
    (h h' : History) (data : PlaylistData) :
  spotifyScraperStrategy w playlistId h = (Ok (Some data), h') ->
  exists response payload raw mapped,
    fetch w h (spotifyScraperRequest playlistId) = Ok response /\ ok response = true /\
    json response = Ok payload /\
    JS.optGet (JS.optGet payload "tracks") "items" = VArr raw /\ raw <> [] /\
    mapRes (spotifyScraperTrack w) raw = Ok mapped /\
    tracks data = filter keepTrack mapped.
Proof.
  unfold spotifyScraperStrategy. unfoldM. fold (spotifyScraperRequest playlistId).
  repeat branch; intros H; inversion H; subst; clear H.
  repeat match goal with
         | E : (_, _) = (_, _) |- _ => inversion E; subst; clear E
         end.
  match goal with
  | E : JS.mapArray _ _ = Ok _ |- _ =>
      apply mapArray_array in E as (raw & Hraw & Hmap)
  end.
  match goal with
  | E : (_ && _ && _)%bool = true |- _ =>
      apply andb_true_iff in E as [E Hlen];
      apply andb_true_iff in E as [Htracks _]
  end.
  match goal with
  | E : JS.get ?p "tracks" = Ok ?t |- _ =>
      unfold JS.get in E; destruct (JS.nullish p) eqn:Hp; [discriminate|];
      inversion E; subst; clear E;
      assert (Hitems : JS.optGet (JS.optGet p "tracks") "items" = VArr raw)
  end.
  { unfold JS.optGet at 2. rewrite Hp. unfold JS.optGet.
    match goal with
    | |- (if JS.nullish ?t then _ else _) = _ =>
        destruct (JS.nullish t) eqn:Hn; [|exact Hraw];
        destruct t; discriminate
    end. }
  do 4 eexists. repeat split; eauto.
  eapply nonempty_length; [exact Hraw | exact Hlen].
Qed.

(** The third strategy returns a playlist as soon as the embedded data has
    a track array, empty or not. *)
Lemma spotifyEmbedStrategy_accepts (w : World) (playlistId : string)
    (h h' : History) (data : PlaylistData) :
  spotifyEmbedStrategy w playlistId h = (Ok (Some data), h') ->
  exists response html script payload raw mapped,
    fetch w h (spotifyEmbedRequest playlistId) = Ok response /\ ok response = true /\
    text response = Ok html /\
    Str.searchFrom embedScriptAt html = Some script /\
    JSON_parse w script = Ok payload /\
    JS.optGet (JS.optGet payload "playlist") "tracks" = VArr raw /\
    mapRes (spotifyEmbedTrack w) raw = Ok mapped /\
    tracks data = filter keepTrack mapped.
Proof.
  unfold spotifyEmbedStrategy. unfoldM. fold (spotifyEmbedRequest playlistId).
  repeat branch; intros H; inversion H; subst; clear H.
  repeat match goal with
         | E : (_, _) = (_, _) |- _ => inversion E; subst; clear E
         end.
  match goal with
  | E : JS.mapArray _ _ = Ok _ |- _ =>
      apply mapArray_array in E as (raw & Hraw & Hmap)
  end.
  match goal with
  | E : JS.get ?p "playlist" = Ok ?t |- _ =>
      unfold JS.get in E; destruct (JS.nullish p) eqn:Hp; [discriminate|];
      inversion E; subst; clear E
  end.
  do 6 eexists. repeat split; eauto.
  unfold JS.optGet at 2. now rewrite Hp.
Qed.

(** The fetcher is the first strategy that returns a playlist. *)
Lemma fetchSpotifyPlaylist_chain (w : World) (playlistId : string)
    (h : History) :
  let request1 := EvFetch (spotifyDownRequest playlistId) in
  let request2 := EvFetch (spotifyScraperRequest playlistId) in
  let request3 := EvFetch (spotifyEmbedRequest playlistId) in
  fetchSpotifyPlaylist w playlistId h =
  match fst (spotifyDownStrategy w playlistId h) with
  | Ok (Some data) => (Ok (Some data), h ++ [request1])
  | _ =>
      match fst (spotifyScraperStrategy w playlistId (h ++ [request1])) with
      | Ok (Some data) => (Ok (Some data), h ++ [request1; request2])
      | _ =>
          (fst (spotifyEmbedStrategy w playlistId (h ++ [request1; request2])),
           h ++ [request1; request2; request3])
      end
  end.
Proof.
  cbv zeta. unfold fetchSpotifyPlaylist, bind, ret.
  destruct (spotifyDownStrategy_run w playlistId h) as [r1 ->]. cbn [fst snd].
  destruct r1 as [data|]; [reflexivity|].
  destruct (spotifyScraperStrategy_run w playlistId
              (h ++ [EvFetch (spotifyDownRequest playlistId)])) as [r2 ->].
  cbn [fst snd]. rewrite <- !app_assoc. cbn [app].
  destruct r2 as [data|]; [reflexivity|].
  destruct (spotifyEmbedStrategy_run w playlistId
              (h ++ [EvFetch (spotifyDownRequest playlistId);
                     EvFetch (spotifyScraperRequest playlistId)]))
    as [r3 ->].
  cbn [fst snd]. rewrite <- !app_assoc. cbn [app].
  now destruct r3.
Qed.

(* ====================================================================== *)
(** ** The Apple Music and YouTube Music fetchers *)
(* ====================================================================== *)

Lemma fetchAppleMusicPlaylist_run (w : World) (storefront_ playlistId : string)
    (h : History) :
  exists r,
    fetchAppleMusicPlaylist w storefront_ playlistId h
    = (Ok r, h ++ [EvFetch (appleRequest storefront_ playlistId)]).
Proof.
  unfold fetchAppleMusicPlaylist. unfoldM.
  fold (appleRequest storefront_ playlistId).
  repeat branch; eauto.
Qed.

(** What the Apple Music fetcher returns is the image of the payload's track
    array, entry by entry. *)
Lemma fetchAppleMusicPlaylist_maps (w : World) (storefront_ playlistId : string)
    (h h' : History) (data : PlaylistData) :
  fetchAppleMusicPlaylist w storefront_ playlistId h = (Ok (Some data), h') ->
  exists response payload raw,
    fetch w h (appleRequest storefront_ playlistId) = Ok response /\
    json response = Ok payload /\
    appleTrackData (JS.optIndex0 (JS.prop payload "data")) = VArr raw /\
    mapRes (appleTrack w) raw = Ok (tracks data).
Proof.
  unfold fetchAppleMusicPlaylist. unfoldM.
  fold (appleRequest storefront_ playlistId).
  repeat branch; intros H; inversion H; subst; clear H.
  repeat match goal with
         | E : (_, _) = (_, _) |- _ => inversion E; subst; clear E
         end.
  match goal with
  | E : JS.mapArray _ _ = Ok _ |- _ =>
      apply mapArray_array in E as (raw & Hraw & Hmap)
  end.
  match goal with
  | E : JS.get ?p "data" = Ok ?t |- _ =>
      unfold JS.get in E; destruct (JS.nullish p) eqn:Hp; [discriminate|];
      inversion E; subst; clear E
  end.
  do 3 eexists. repeat split; eauto.
Qed.

Lemma fetchFromInstance_run (w : World) (instance playlistId : string)
    (h : History) :
  exists r,
    fetchFromInstance w instance playlistId h
    = (Ok r, h ++ [EvFetch (invidiousRequest instance playlistId)]).
Proof.
  unfold fetchFromInstance. unfoldM.
  fold (invidiousRequest instance playlistId).
  repeat branch; eauto.
Qed.

Lemma fetchFromInstance_maps (w : World) (instance playlistId : string)
    (h h' : History) (data : PlaylistData) :
  fetchFromInstance w instance playlistId h = (Ok (Some data), h') ->
  exists response payload raw,
    fetch w h (invidiousRequest instance playlistId) = Ok response /\
    json response = Ok payload /\
    youtubeVideos payload = VArr raw /\
    mapRes youtubeTrack raw = Ok (tracks data).
Proof.
  unfold fetchFromInstance. unfoldM.
  fold (invidiousRequest instance playlistId).
  repeat branch; intros H; inversion H; subst; clear H.
  repeat match goal with
         | E : (_, _) = (_, _) |- _ => inversion E; subst; clear E
         end.
  match goal with
  | E : JS.mapArray _ _ = Ok _ |- _ =>
      apply mapArray_array in E as (raw & Hraw & Hmap)
  end.
  do 3 eexists. repeat split; eauto.
Qed.

Lemma fetchFromInstances_run (w : World) (playlistId : string)
    (instances : list string) :
  forall h, exists r evs,
    fetchFromInstances w instances playlistId h = (Ok r, h ++ evs) /\
    Forall (fun e => isFetch e = true) evs.
Proof.
  induction instances as [|instance rest IH]; intros h; simpl.
  - exists None, []. unfold ret. now rewrite app_nil_r.
  - unfold bind.
    destruct (fetchFromInstance_run w instance playlistId h) as [r ->].
    destruct r as [data|].
    + exists (Some data), [EvFetch (invidiousRequest instance playlistId)].
      split; [reflexivity | now repeat constructor].
    + destruct (IH (h ++ [EvFetch (invidiousRequest instance playlistId)]))
        as (r & evs & -> & Hevs).
      exists r, (EvFetch (invidiousRequest instance playlistId) :: evs).
      rewrite <- app_assoc. split; [reflexivity | now constructor].
Qed.

Lemma fetchFromInstances_maps (w : World) (playlistId : string)
    (instances : list string) :
  forall h h' data,
    fetchFromInstances w instances playlistId h = (Ok (Some data), h') ->
    exists instance h0 response payload raw,
      In instance instances /\
      fetch w h0 (invidiousRequest instance playlistId) = Ok response /\
      json response = Ok payload /\
      youtubeVideos payload = VArr raw /\
      mapRes youtubeTrack raw = Ok (tracks data).
Proof.
  induction instances as [|instance rest IH]; intros h h' data; simpl.
  - unfold ret. discriminate.
  - unfold bind.
    destruct (fetchFromInstance w instance playlistId h) as [r h1] eqn:E.
    destruct r as [[data1|]|]; cbv beta iota.
    + unfold ret. intros H. inversion H; subst; clear H.
      apply fetchFromInstance_maps in E as (response & payload & raw & H).
      exists instance, h, response, payload, raw. split; [now left | exact H].
    + intros H. apply IH in H as (i & h0 & response & payload & raw & Hi & H).
      exists i, h0, response, payload, raw. split; [now right | exact H].
    + discriminate.
Qed.

(** The fetch step never raises, and all it does to the world is fetch. *)
Lemma fetchSpotifyPlaylist_run (w : World) (playlistId : string) (h : History) :
  exists r evs,
    fetchSpotifyPlaylist w playlistId h = (Ok r, h ++ evs) /\
    Forall (fun e => isFetch e = true) evs.
Proof.
  rewrite fetchSpotifyPlaylist_chain.
  destruct (spotifyDownStrategy_run w playlistId h) as [r1 ->].
  cbn [fst snd].
  destruct r1 as [data|].
  { do 2 eexists. split; [reflexivity | now repeat constructor]. }
  destruct (spotifyScraperStrategy_run w playlistId
              (h ++ [EvFetch (spotifyDownRequest playlistId)])) as [r2 ->].
  cbn [fst snd].
  destruct r2 as [data|].
  { do 2 eexists. split; [reflexivity | now repeat constructor]. }
  destruct (spotifyEmbedStrategy_run w playlistId
              (h ++ [EvFetch (spotifyDownRequest playlistId);
                     EvFetch (spotifyScraperRequest playlistId)])) as [r3 ->].
  cbn [fst snd].
  do 2 eexists. split; [reflexivity | now repeat constructor].
Qed.

Lemma fetchByPlatform_run (w : World) (platform_ : ImportPlatform)
    (url_ : string) (h : History) :
  exists r evs,
    fetchByPlatform w platform_ url_ h = (Ok r, h ++ evs) /\
    Forall (fun e => isFetch e = true) evs.
Proof.
  unfold fetchByPlatform.
  destruct platform_.
  - destruct (parseSpotifyUrl url_) as [id_|].
    + unfold bind, ret.
      destruct (fetchSpotifyPlaylist_run w id_ h) as (r & evs & -> & Hevs).
      eauto.
    + exists (inl (failed 0 [] "Invalid Spotify playlist URL")), [].
      unfold ret. now rewrite app_nil_r.
  - destruct (parseAppleMusicUrl url_) as [parsed|].
    + unfold bind, ret.
      destruct (fetchAppleMusicPlaylist_run w (storefront parsed) (id parsed) h)
        as (r & ->).
      do 2 eexists. split; [reflexivity | now repeat constructor].
    + exists (inl (failed 0 [] "Invalid Apple Music playlist URL")), [].
      unfold ret. now rewrite app_nil_r.
  - destruct (parseYouTubeMusicUrl url_) as [id_|].
    + unfold bind, ret, fetchYouTubeMusicPlaylist.
      destruct (fetchFromInstances_run w id_ INVIDIOUS_INSTANCES h)
        as (r & evs & -> & Hevs).
      eauto.
    + exists (inl (failed 0 [] "Invalid YouTube Music playlist URL")), [].
      unfold ret. now rewrite app_nil_r.
  - exists (inr (EmptyString, None)), [].
    unfold ret. now rewrite app_nil_r.
Qed.

(* ====================================================================== *)
(** ** The fallback chain of the Spotify fetcher *)
(* ====================================================================== *)




(** The test of the first strategy comes before the filter: a track list
    whose only track has no title ends the fetch with an empty playlist. *)
Example fetchSpotifyPlaylist_only_incomplete :
  fetchSpotifyPlaylist Sample.untitledTrackWorld "abc" []
  = (Ok (Some {| name := VStr "Road mix"; tracks := [] |}),
     [EvFetch (spotifyDownRequest "abc")]).
Proof. reflexivity. Qed.

(* ====================================================================== *)
(** ** Which fetchers drop incomplete tracks *)

(** A track without a name comes back from the Apple Music fetcher, and a
    video without a title from the YouTube Music fetcher. *)
Example fetchAppleMusicPlaylist_keeps_unnamed :
  fst (fetchAppleMusicPlaylist Sample.unnamedAppleWorld "us" "pl.abc" [])
  = Ok (Some {| name := VStr "Apple mix";
                tracks := [ {| title := VUndefined; artist := VStr "Band A";
                               album := VUndefined; duration := VUndefined |} ] |}).
Proof. reflexivity. Qed.

Example fetchYouTubeMusicPlaylist_keeps_untitled :
  fst (fetchYouTubeMusicPlaylist Sample.untitledVideoWorld "PLxyz" [])
  = Ok (Some {| name := VStr "Road mix";
                tracks := [ {| title := VUndefined; artist := VStr "Band A";
                               album := VUndefined; duration := VUndefined |} ] |}).
Proof. reflexivity. Qed.

(* ====================================================================== *)

(** C7.  Whatever the Spotify fetcher returns is the list mapped from the
    payload by one of its three strategies with the tracks that lack a
    title or an artist taken out: no returned track has a missing or empty
    title or artist.  What the Apple Music and the YouTube Music fetchers
    return is the list mapped from the payload, entry by entry, with
    nothing taken out. *)
Theorem fetchers_and_incomplete_tracks
    (w : World) (storefront_ playlistId : string) (h h' : History)
    (data : PlaylistData) :
  (fetchSpotifyPlaylist w playlistId h = (Ok (Some data), h') ->
   (exists toTrack raw mapped,
      In toTrack [spotifyDownTrack; spotifyScraperTrack w; spotifyEmbedTrack w] /\
      mapRes toTrack raw = Ok mapped /\
      tracks data = filter keepTrack mapped /\
      (forall t, In t mapped ->
         missingOrEmpty (title t) \/ missingOrEmpty (artist t) ->
         ~ In t (tracks data))) /\
   Forall (fun t => ~ missingOrEmpty (title t) /\ ~ missingOrEmpty (artist t))
     (tracks data)) /\
  (fetchAppleMusicPlaylist w storefront_ playlistId h = (Ok (Some data), h') ->
   exists response payload raw,
     fetch w h (appleRequest storefront_ playlistId) = Ok response /\
     json response = Ok payload /\
     appleTrackData (JS.optIndex0 (JS.prop payload "data")) = VArr raw /\
     mapRes (appleTrack w) raw = Ok (tracks data) /\
     List.length (tracks data) = List.length raw) /\
  (fetchYouTubeMusicPlaylist w playlistId h = (Ok (Some data), h') ->
   exists instance h0 response payload raw,
     In instance INVIDIOUS_INSTANCES /\
     fetch w h0 (invidiousRequest instance playlistId) = Ok response /\
     json response = Ok payload /\
     youtubeVideos payload = VArr raw /\
     mapRes youtubeTrack raw = Ok (tracks data) /\
     List.length (tracks data) = List.length raw).
Proof.
  repeat split.
  - assert (Hdrop : forall mapped : list ImportedTrack,
              forall t, In t mapped ->
                missingOrEmpty (title t) \/ missingOrEmpty (artist t) ->
                ~ In t (filter keepTrack mapped)).
    { intros mapped t _ Hmiss Hin. apply filter_In in Hin as [_ Hk].
      apply keepTrack_present in Hk. tauto. }
    revert H. rewrite fetchSpotifyPlaylist_chain.
    destruct (spotifyDownStrategy w playlistId h) as [r1 h1] eqn:E1.
    cbn [fst].
    destruct r1 as [[d1|]|].
    + intros H; inversion H; subst; clear H.
      apply spotifyDownStrategy_accepts in E1
        as (? & ? & raw & mapped & _ & _ & _ & _ & _ & Hm & Ht).
      exists spotifyDownTrack, raw, mapped. rewrite Ht.
      repeat split; auto. now left.
    + destruct (spotifyScraperStrategy w playlistId
                  (h ++ [EvFetch (spotifyDownRequest playlistId)]))
        as [r2 h2] eqn:E2.
      cbn [fst].
      destruct r2 as [[d2|]|].
      * intros H; inversion H; subst; clear H.
        apply spotifyScraperStrategy_accepts in E2
          as (? & ? & raw & mapped & _ & _ & _ & _ & _ & Hm & Ht).
        exists (spotifyScraperTrack w), raw, mapped. rewrite Ht.
        repeat split; auto. right; now left.
      * destruct (spotifyEmbedStrategy w playlistId
                    (h ++ [EvFetch (spotifyDownRequest playlistId);
                           EvFetch (spotifyScraperRequest playlistId)]))
          as [r3 h3] eqn:E3.
        cbn [fst]. intros H; inversion H; subst; clear H.
        apply spotifyEmbedStrategy_accepts in E3
          as (? & ? & ? & ? & raw & mapped & _ & _ & _ & _ & _ & _ & Hm & Ht).
        exists (spotifyEmbedTrack w), raw, mapped. rewrite Ht.
        repeat split; auto. right; right; now left.
      * destruct (spotifyScraperStrategy_run w playlistId
                    (h ++ [EvFetch (spotifyDownRequest playlistId)])) as [r E].
        rewrite E in E2. discriminate.
    + destruct (spotifyDownStrategy_run w playlistId h) as [r E].
      rewrite E in E1. discriminate.
  - destruct (fetchSpotifyPlaylist_run w playlistId h) as (r & evs & E & _).
    revert H. rewrite fetchSpotifyPlaylist_chain.
    destruct (spotifyDownStrategy w playlistId h) as [r1 h1] eqn:E1.
    cbn [fst].
    destruct r1 as [[d1|]|].
    + intros H; inversion H; subst; clear H.
      apply spotifyDownStrategy_accepts in E1
        as (? & ? & raw & mapped & _ & _ & _ & _ & _ & Hm & Ht).
      rewrite Ht. apply filter_keepTrack_present.
    + destruct (spotifyScraperStrategy w playlistId
                  (h ++ [EvFetch (spotifyDownRequest playlistId)]))
        as [r2 h2] eqn:E2.
      cbn [fst].
      destruct r2 as [[d2|]|].
      * intros H; inversion H; subst; clear H.
        apply spotifyScraperStrategy_accepts in E2
          as (? & ? & raw & mapped & _ & _ & _ & _ & _ & Hm & Ht).
        rewrite Ht. apply filter_keepTrack_present.
      * destruct (spotifyEmbedStrategy w playlistId
                    (h ++ [EvFetch (spotifyDownRequest playlistId);
                           EvFetch (spotifyScraperRequest playlistId)]))
          as [r3 h3] eqn:E3.
        cbn [fst]. intros H; inversion H; subst; clear H.
        apply spotifyEmbedStrategy_accepts in E3
          as (? & ? & ? & ? & raw & mapped & _ & _ & _ & _ & _ & _ & Hm & Ht).
        rewrite Ht. apply filter_keepTrack_present.
      * destruct (spotifyScraperStrategy_run w playlistId
                    (h ++ [EvFetch (spotifyDownRequest playlistId)])) as [r' E'].
        rewrite E' in E2. discriminate.
    + destruct (spotifyDownStrategy_run w playlistId h) as [r' E'].
      rewrite E' in E1. discriminate.
  - intros H.
    apply fetchAppleMusicPlaylist_maps in H
      as (response & payload & raw & Hf & Hj & Hd & Hm).
    exists response, payload, raw. repeat split; auto.
    now apply mapRes_length in Hm.
  - unfold fetchYouTubeMusicPlaylist. intros H.
    apply fetchFromInstances_maps in H
      as (instance & h0 & response & payload & raw & Hi & Hf & Hj & Hv & Hm).
    exists instance, h0, response, payload, raw. repeat split; auto.
    now apply mapRes_length in Hm.
Qed.

Lemma fetchers_and_incomplete_tracks_witness :
  Forall (fun t => ~ missingOrEmpty (title t) /\ ~ missingOrEmpty (artist t))
    [ {| title := VStr "Song A"; artist := VStr "Band A";
         album := VStr ""; duration := VNum 0 |} ] /\
  (exists raw,
     mapRes (appleTrack Sample.unnamedAppleWorld) raw
     = Ok [ {| title := VUndefined; artist := VStr "Band A";
               album := VUndefined; duration := VUndefined |} ]) /\
  (exists raw,
     mapRes youtubeTrack raw
     = Ok [ {| title := VUndefined; artist := VStr "Band A";
               album := VUndefined; duration := VUndefined |} ]).
Proof.
  pose proof
    (fetchers_and_incomplete_tracks Sample.twoTracksWorld "us" "abc" []
       (snd (fetchSpotifyPlaylist Sample.twoTracksWorld "abc" []))
       {| name := VStr "Road mix";
          tracks := [ {| title := VStr "Song A"; artist := VStr "Band A";
                         album := VStr ""; duration := VNum 0 |} ] |})
    as (HS & _ & _).
  pose proof
    (fetchers_and_incomplete_tracks Sample.unnamedAppleWorld "us" "pl.abc" []
       (snd (fetchAppleMusicPlaylist Sample.unnamedAppleWorld "us" "pl.abc" []))
       {| name := VStr "Apple mix";
          tracks := [ {| title := VUndefined; artist := VStr "Band A";
                         album := VUndefined; duration := VUndefined |} ] |})
    as (_ & HA & _).
  pose proof
    (fetchers_and_incomplete_tracks Sample.untitledVideoWorld "us" "abc" []
       (snd (fetchYouTubeMusicPlaylist Sample.untitledVideoWorld "abc" []))
       {| name := VStr "Road mix";
          tracks := [ {| title := VUndefined; artist := VStr "Band A";
                         album := VUndefined; duration := VUndefined |} ] |})
    as (_ & _ & HY).
  split; [|split].
  - exact (proj2 (HS eq_refl)).
  - destruct (HA eq_refl) as (_ & _ & raw & _ & _ & _ & Hm & _).
    exists raw. exact Hm.
  - destruct (HY eq_refl) as (_ & _ & _ & _ & raw & _ & _ & _ & _ & Hm & _).
    exists raw. exact Hm.
Defined.

(* ====================================================================== *)
(** ** The track matcher *)
(* ====================================================================== *)

Lemma answers_firstTrack (reply : Res (option SearchResults)) (m : MusicTrack.t) :
  answers reply m -> exists results, reply = Ok results /\ firstTrack results = Some m.
Proof. intros [l ->]. eauto. Qed.

Lemma silent_firstTrack (reply : Res (option SearchResults)) :
  silent reply ->
  match reply with
  | Ok results => firstTrack results = None
  | Throw => True
  end.
Proof.
  intros H. destruct reply as [[[[[|m l]|]]|]|]; try reflexivity; try exact I.
  exfalso. apply (H m). now exists l.
Qed.



(** The matcher never raises, and all it does to the world is search. *)
Lemma matchTrack_run (w : World) (track : ImportedTrack) (h : History) :
  exists r evs,
    matchTrack w track h = (Ok r, h ++ evs) /\
    Forall (fun e => isSearch e = true) evs.
Proof.
  unfold matchTrack. unfoldM.
  repeat branch; rewrite <- ?app_assoc;
    do 2 eexists; (split; [reflexivity | now repeat constructor]).
Qed.

(* ====================================================================== *)
(** ** The matching loop *)
(* ====================================================================== *)

Lemma matchingCurrents_app (a b : list Event) :
  matchingCurrents (a ++ b) = matchingCurrents a ++ matchingCurrents b.
Proof. apply flat_map_app. Qed.

Lemma matchingCurrents_search (evs : list Event) :
  Forall (fun e => isSearch e = true) evs -> matchingCurrents evs = [].
Proof.
  induction 1 as [|e evs He _ IH]; [reflexivity|].
  destruct e; try discriminate; exact IH.
Qed.

Lemma matchingCurrents_fetch (evs : list Event) :
  Forall (fun e => isFetch e = true) evs -> matchingCurrents evs = [].
Proof.
  induction 1 as [|e evs He _ IH]; [reflexivity|].
  destruct e; try discriminate; exact IH.
Qed.

Lemma search_isMatching (evs : list Event) :
  Forall (fun e => isSearch e = true) evs ->
  Forall (fun e => isMatching e = true) evs.
Proof.
  apply Forall_impl. intros e He. destruct e; try discriminate; reflexivity.
Qed.

(** One run of the loop over [rest], entered with index [i]: it returns, it
    sorts every track of [rest] into one of the two lists, and it reports
    the indices [i + 1], [i + 2], ... once each, in this order. *)
Lemma matchLoop_run (w : World) (onProgress : bool) (len : Z)
    (rest : list ImportedTrack) :
  forall i matched0 unmatched0 h,
  exists matched unmatched evs,
    matchLoop w onProgress len i rest matched0 unmatched0 h
    = (Ok (matched0 ++ matched, unmatched0 ++ unmatched), h ++ evs) /\
    List.length matched + List.length unmatched = List.length rest /\
    (matched = [] -> unmatched = rest) /\
    matchingCurrents evs
    = (if onProgress then countFrom i (List.length rest) else []) /\
    Forall (fun e => isMatching e = true) evs /\
    ((forall track h0, In track rest -> fst (matchTrack w track h0) = Ok None) ->
     matched = []).
Proof.
  induction rest as [|track rest IH]; intros i matched0 unmatched0 h.
  - exists [], [], []. simpl. unfold ret. rewrite !app_nil_r.
    repeat split; auto. now destruct onProgress.
  - cbn [matchLoop]. unfold bind at 1 2.
    set (p := {| Progress.stage := Progress.matching;
                 Progress.current := (i + 1)%Z;
                 Progress.total := len;
                 Progress.message :=
                   ("Matching: " ++ JS.toString (title track))%string |}).
    set (pre := if onProgress then [EvProgress p] else []).
    assert (Hreport : report onProgress p h = (Ok tt, h ++ pre)).
    { unfold report, call, ret, pre.
      destruct onProgress; [reflexivity | now rewrite app_nil_r]. }
    rewrite Hreport.
    destruct (matchTrack_run w track (h ++ pre)) as (r & evs1 & Hrun & Hs).
    rewrite Hrun.
    set (pause := if (i <? len - 1)%Z then [EvSleep 200] else []).
    assert (Hpause : forall h0,
              (if (i <? len - 1)%Z then sleep 200 else ret tt) h0
              = (Ok tt, h0 ++ pause)).
    { intros h0. unfold pause, sleep, call, ret.
      destruct (i <? len - 1)%Z; [reflexivity | now rewrite app_nil_r]. }
    assert (Hcur : matchingCurrents (pre ++ evs1 ++ pause)
                   = if onProgress then [(i + 1)%Z] else []).
    { rewrite !matchingCurrents_app, (matchingCurrents_search evs1 Hs).
      unfold pre, pause.
      destruct onProgress; destruct (i <? len - 1)%Z; reflexivity. }
    assert (Hev : Forall (fun e => isMatching e = true) (pre ++ evs1 ++ pause)).
    { apply Forall_app; split; [|apply Forall_app; split].
      - unfold pre. destruct onProgress; now repeat constructor.
      - now apply search_isMatching.
      - unfold pause. destruct (i <? len - 1)%Z; now repeat constructor. }
    destruct r as [m|]; unfold bind; rewrite Hpause.
    + destruct (IH (i + 1)%Z (matched0 ++ [m]) unmatched0
                  (((h ++ pre) ++ evs1) ++ pause))
        as (matched & unmatched & evs & -> & Hlen & _ & Hc & Hm & _).
      exists (m :: matched), unmatched, ((pre ++ evs1 ++ pause) ++ evs).
      rewrite <- !app_assoc. cbn [app].
      repeat split.
      * simpl. lia.
      * discriminate.
      * rewrite !app_assoc, matchingCurrents_app, <- !app_assoc, Hcur, Hc.
        now destruct onProgress.
      * rewrite !app_assoc. apply Forall_app. split; [|exact Hm].
        now rewrite <- !app_assoc.
      * intros Hnone. specialize (Hnone track (h ++ pre) (or_introl eq_refl)).
        rewrite Hrun in Hnone. discriminate.
    + destruct (IH (i + 1)%Z matched0 (unmatched0 ++ [track])
                  (((h ++ pre) ++ evs1) ++ pause))
        as (matched & unmatched & evs & -> & Hlen & Hall & Hc & Hm & Hno).
      exists matched, (track :: unmatched), ((pre ++ evs1 ++ pause) ++ evs).
      rewrite <- !app_assoc. cbn [app].
      repeat split.
      * simpl. lia.
      * intros E. now rewrite (Hall E).
      * rewrite !app_assoc, matchingCurrents_app, <- !app_assoc, Hcur, Hc.
        now destruct onProgress.
      * rewrite !app_assoc. apply Forall_app. split; [|exact Hm].
        now rewrite <- !app_assoc.
      * intros Hnone. apply Hno. intros t h0 Ht. apply Hnone. now right.
Qed.

(* ====================================================================== *)
(** ** The import *)
(* ====================================================================== *)

Lemma ImportPlatform_eq_dec (p q : ImportPlatform) : {p = q} + {p <> q}.
Proof. decide equality. Defined.

Lemma matching_not_save (evs : list Event) :
  Forall (fun e => isMatching e = true) evs ->
  Forall (fun e => isSave e = false) evs.
Proof.
  apply Forall_impl. intros e He.
  destruct e as [| | |p| | |]; try discriminate; try reflexivity.
  simpl in *. destruct (Progress.stage p); try discriminate; reflexivity.
Qed.

Lemma fetch_not_save (evs : list Event) :
  Forall (fun e => isFetch e = true) evs ->
  Forall (fun e => isSave e = false) evs.
Proof.
  apply Forall_impl. intros e He. destruct e; try discriminate; reflexivity.
Qed.

Lemma report_run (onProgress : bool) (p : Progress.ImportProgress) (h : History) :
  report onProgress p h
  = (Ok tt, h ++ (if onProgress then [EvProgress p] else [])).
Proof.
  unfold report, call, ret.
  destruct onProgress; [reflexivity | now rewrite app_nil_r].
Qed.

(** The part of a run after a fetch that gave tracks. *)
Lemma matchAndSave_run (w : World) (onProgress : bool)
    (platform_ : ImportPlatform) (id_ : string) (data : PlaylistData)
    (h h' : History) (r : Res ImportResult) :
  matchAndSave w onProgress platform_ id_ data h = (r, h') ->
  exists evs,
    h' = h ++ evs /\
    matchingCurrents evs
    = (if onProgress then 0%Z :: countFrom 0 (List.length (tracks data)) else []) /\
    forall res, r = Ok res ->
      totalTracks res = Z.of_nat (List.length (tracks data)) /\
      (matchedTracks res + Z.of_nat (List.length (unmatchedTracks res))
       = totalTracks res)%Z /\
      ((forall track h0, In track (tracks data) ->
          fst (matchTrack w track h0) = Ok None) ->
       success res = false) /\
      ((res = failed (Z.of_nat (List.length (tracks data))) (tracks data)
                "Could not match any tracks. Try a different playlist." /\
        Forall (fun e => isSave e = false) evs)
       \/
       (exists pl first others_,
          success res = true /\ error res = None /\
          playlist res = Some pl /\
          UserPlaylist.tracks pl = first :: others_ /\
          matchedTracks res = Z.of_nat (List.length (UserPlaylist.tracks pl)) /\
          UserPlaylist.coverArt pl
          = JS.or_ (PlaylistTrack.coverArt first) VUndefined /\
          UserPlaylist.importSource pl
          = Some {| platform := platform_;
                    originalId := id_;
                    originalName := name data |} /\
          In (EvCreatePlaylist (name data)) evs /\
          In (EvUpdatePlaylist pl) evs)).
Proof.
  unfold matchAndSave. unfold bind at 1 2. rewrite report_run.
  set (pre := if onProgress then _ else []).
  assert (Hpre : matchingCurrents pre = if onProgress then [0%Z] else []).
  { unfold pre. now destruct onProgress. }
  assert (Hpre' : Forall (fun e => isSave e = false) pre).
  { unfold pre. destruct onProgress; now repeat constructor. }
  clearbody pre.
  destruct (matchLoop_run w onProgress (Z.of_nat (List.length (tracks data)))
              (tracks data) 0 [] [] (h ++ pre))
    as (matched & unmatched & evsL & -> & Hlen & Hall & Hcur & Hev & Hnone).
  cbn [app]. cbv beta iota.
  destruct matched as [|first others_].
  - unfold ret. intros H; inversion H; subst; clear H.
    rewrite <- app_assoc.
    eexists. split; [reflexivity|]. split.
    + rewrite matchingCurrents_app, Hpre, Hcur. now destruct onProgress.
    + intros res E. inversion E; subst; clear E.
      rewrite (Hall eq_refl) in *.
      refine (conj eq_refl (conj _ (conj (fun _ => eq_refl) _))).
      * unfold failed; cbn [matchedTracks unmatchedTracks totalTracks]. lia.
      * left. split; [reflexivity|].
        apply Forall_app. split; [exact Hpre'|].
        now apply matching_not_save.
  - unfold bind. rewrite report_run. unfold call.
    match goal with
    | |- context [createPlaylist w ?hc ?n] =>
        destruct (createPlaylist w hc n) as [newPlaylist|]
    end.
    + match goal with
      | |- context [updatePlaylist w ?hu ?pl] =>
          destruct (updatePlaylist w hu pl) as [[]|]; set (updated := pl)
      end.
      * rewrite report_run. unfold ret.
        intros H; inversion H; subst; clear H.
        rewrite <- !app_assoc.
        eexists. split; [reflexivity|]. split.
        -- rewrite !matchingCurrents_app, Hpre, Hcur.
           destruct onProgress; simpl; now rewrite ?app_nil_r.
        -- intros res E. inversion E; subst; clear E.
           cbn [totalTracks matchedTracks unmatchedTracks success error playlist].
           refine (conj eq_refl (conj _ (conj _ _))).
           ++ rewrite <- Hlen, Nat2Z.inj_add. reflexivity.
           ++ intros Hno. specialize (Hnone Hno). discriminate.
           ++ right. exists updated, first, others_.
              refine (conj eq_refl (conj eq_refl (conj eq_refl (conj eq_refl
                        (conj eq_refl (conj eq_refl (conj eq_refl (conj _ _)))))))).
              ** rewrite !in_app_iff. right; right; right; left. now left.
              ** rewrite !in_app_iff. right; right; right; right; left. now left.
      * intros H; inversion H; subst; clear H.
        rewrite <- !app_assoc.
        eexists. split; [reflexivity|]. split.
        -- rewrite !matchingCurrents_app, Hpre, Hcur.
           destruct onProgress; simpl; now rewrite ?app_nil_r.
        -- discriminate.
    + intros H; inversion H; subst; clear H.
      rewrite <- !app_assoc.
      eexists. split; [reflexivity|]. split.
      * rewrite !matchingCurrents_app, Hpre, Hcur.
        destruct onProgress; simpl; now rewrite ?app_nil_r.
      * discriminate.
Qed.

(** A recognised URL: the run is the fetch step followed, when it gave
    tracks, by matching and saving. *)
Lemma importPlaylist_known (w : World) (url_ : string) (onProgress : bool)
    (h : History) :
  detectPlatform url_ <> unknown ->
  importPlaylist w url_ onProgress h =
  match fetchByPlatform w (detectPlatform url_) url_
          (atFetch onProgress (detectPlatform url_) h) with
  | (Ok (inl early), h1) => (Ok early, h1)
  | (Ok (inr (id_, Some data)), h1) =>
      match tracks data with
      | [] =>
          (Ok (failed 0 [] "Could not fetch playlist. Make sure it's a public playlist."),
           h1)
      | _ :: _ => matchAndSave w onProgress (detectPlatform url_) id_ data h1
      end
  | (Ok (inr (_, None)), h1) =>
      (Ok (failed 0 [] "Could not fetch playlist. Make sure it's a public playlist."),
       h1)
  | (Throw, h1) => (Throw, h1)
  end.
Proof.
  intros Hknown. unfold importPlaylist, atFetch, fetchingEvent.
  destruct (detectPlatform url_); try contradiction;
    unfold bind at 1 2; rewrite report_run;
    match goal with
    | |- context [fetchByPlatform w ?p ?u ?h0] =>
        destruct (fetchByPlatform w p u h0) as [[[early|[id_ [data|]]]|] h1]
    end; try reflexivity;
    destruct (tracks data); reflexivity.
Qed.

(** An early result of the fetch step is an invalid-URL failure, returned
    before any request. *)
Lemma fetchByPlatform_early (w : World) (platform_ : ImportPlatform)
    (url_ : string) (h h1 : History) (early : ImportResult) :
  fetchByPlatform w platform_ url_ h = (Ok (inl early), h1) ->
  h1 = h /\ exists msg, early = failed 0 [] msg /\ In msg earlyErrors.
Proof.
  unfold fetchByPlatform, earlyErrors.
  destruct platform_.
  - destruct (parseSpotifyUrl url_) as [id_|]; unfold bind, ret.
    + destruct (fetchSpotifyPlaylist w id_ h) as [[?|] ?]; discriminate.
    + intros H; inversion H. split; [reflexivity|]. eexists.
      split; [reflexivity|]. simpl; tauto.
  - destruct (parseAppleMusicUrl url_) as [parsed|]; unfold bind, ret.
    + destruct (fetchAppleMusicPlaylist w _ _ h) as [[?|] ?]; discriminate.
    + intros H; inversion H. split; [reflexivity|]. eexists.
      split; [reflexivity|]. simpl; tauto.
  - destruct (parseYouTubeMusicUrl url_) as [id_|]; unfold bind, ret.
    + destruct (fetchYouTubeMusicPlaylist w id_ h) as [[?|] ?]; discriminate.
    + intros H; inversion H. split; [reflexivity|]. eexists.
      split; [reflexivity|]. simpl; tauto.
  - unfold ret. discriminate.
Qed.

Lemma countFrom_seq (n : nat) :
  forall i : nat, countFrom (Z.of_nat i) n = map Z.of_nat (seq (S i) n).
Proof.
  induction n as [|n IH]; intros i; [reflexivity|].
  cbn [countFrom seq map].
  replace (Z.of_nat i + 1)%Z with (Z.of_nat (S i)) by lia.
  now rewrite IH.
Qed.

(** Every way in which the import returns: an early failure without tracks,
    the failure to match any of the fetched tracks, or a success. *)
Lemma importPlaylist_returns (w : World) (url_ : string) (onProgress : bool)
    (h h' : History) (r : ImportResult) :
  importPlaylist w url_ onProgress h = (Ok r, h') ->
  exists evs,
    h' = h ++ evs /\
    ((exists msg,
        r = failed 0 [] msg /\ In msg earlyErrors /\
        Forall (fun e => isSave e = false) evs)
     \/
     (exists data,
        tracks data <> [] /\
        r = failed (Z.of_nat (List.length (tracks data))) (tracks data)
              "Could not match any tracks. Try a different playlist." /\
        Forall (fun e => isSave e = false) evs)
     \/
     (exists pl first others_,
        success r = true /\ error r = None /\
        playlist r = Some pl /\
        UserPlaylist.tracks pl = first :: others_ /\
        matchedTracks r = Z.of_nat (List.length (UserPlaylist.tracks pl)) /\
        (matchedTracks r + Z.of_nat (List.length (unmatchedTracks r))
         = totalTracks r)%Z /\
        UserPlaylist.coverArt pl
        = JS.or_ (PlaylistTrack.coverArt first) VUndefined /\
        In (EvUpdatePlaylist pl) evs)).
Proof.
  destruct (ImportPlatform_eq_dec (detectPlatform url_) unknown) as [Hp|Hp].
  { unfold importPlaylist. rewrite Hp. unfold ret.
    intros H; inversion H; subst; clear H.
    exists []. rewrite app_nil_r. split; [reflexivity|]. left.
    eexists. split; [reflexivity|]. split; [|constructor].
    unfold earlyErrors. simpl; tauto. }
  rewrite importPlaylist_known by exact Hp. unfold atFetch.
  set (pre := if onProgress then _ else []).
  destruct (fetchByPlatform_run w (detectPlatform url_) url_ (h ++ pre))
    as (fetched & evsF & Hf & HevF).
  pose proof (fetchByPlatform_early w (detectPlatform url_) url_ (h ++ pre))
    as Hearly.
  rewrite Hf in *.
  assert (Hpre : Forall (fun e => isSave e = false) (pre ++ evsF)).
  { apply Forall_app; split.
    - unfold pre; destruct onProgress; now repeat constructor.
    - now apply fetch_not_save. }
  clearbody pre.
  match goal with
  | |- _ -> ?G =>
      assert (Hfail : forall msg,
                In msg earlyErrors ->
                (Ok (failed 0 [] msg), (h ++ pre) ++ evsF) = (Ok r, h') -> G)
  end.
  { intros msg Hmsg H; inversion H; subst; clear H.
    exists (pre ++ evsF). rewrite app_assoc. split; [reflexivity|].
    left. exists msg. auto. }
  destruct fetched as [early|[id_ [data|]]].
  - destruct (Hearly _ _ eq_refl) as (_ & msg & -> & Hmsg).
    now apply (Hfail msg).
  - destruct (tracks data) as [|t ts] eqn:Ht.
    + apply Hfail. unfold earlyErrors; simpl; tauto.
    + intros H. apply matchAndSave_run in H as (evs & -> & _ & Hres).
      destruct (Hres r eq_refl) as (Htot & Hsum & _ & Hcases).
      exists ((pre ++ evsF) ++ evs). rewrite !app_assoc.
      split; [reflexivity|].
      destruct Hcases as [[-> Hns]|(pl & first & others_ & Hs & He & Hpl
                                      & Htr & Hm & Hc & _ & _ & Hin)].
      * right; left. exists data. rewrite Ht. split; [discriminate|].
        split; [reflexivity|].
        apply Forall_app; split; [exact Hpre | exact Hns].
      * right; right. exists pl, first, others_.
        repeat (split; [assumption|]).
        apply in_or_app; now right.
  - apply Hfail. unfold earlyErrors; simpl; tauto.
Qed.

(* ====================================================================== *)
(** ** Progress of the matching stage *)
(* ====================================================================== *)




(* ====================================================================== *)
(** ** The result of an import *)
(* ====================================================================== *)





(** C8.  On a URL that [detectPlatform] does not recognise, [importPlaylist]
    returns at once: a failure without tracks, with the message about the
    unsupported URL, and the history is left as it was, so that no progress
    event is emitted and nothing is fetched. *)
Theorem importPlaylist_unknown_platform
    (w : World) (url_ : string) (onProgress : bool) (h : History) :
  detectPlatform url_ = unknown ->
  exists msg,
    importPlaylist w url_ onProgress h
    = (Ok {| success := false;
             playlist := None;
             totalTracks := 0;
             matchedTracks := 0;
             unmatchedTracks := [];
             error := Some msg |},
       h) /\
    msg <> ""%string /\
    msg = ("Unsupported URL. Please use a Spotify, Apple Music, or YouTube Music playlist link.")%string.
Proof.
  intros Hp. unfold importPlaylist. rewrite Hp.
  eexists. split; [reflexivity|]. split; [discriminate | reflexivity].
Qed.

Lemma importPlaylist_unknown_platform_witness :
  exists msg,
    importPlaylist Sample.oneVideoQobuz "https://example.com/playlist/42" true []
    = (Ok {| success := false;
             playlist := None;
             totalTracks := 0;
             matchedTracks := 0;
             unmatchedTracks := [];
             error := Some msg |},
       []) /\
    msg <> ""%string.
Proof.
  destruct (importPlaylist_unknown_platform Sample.oneVideoQobuz
              "https://example.com/playlist/42" true [] eq_refl)
    as (msg & Hrun & Hmsg & _).
  exists msg. split; [exact Hrun | exact Hmsg].
Defined.

(** C9.  On a successful import the playlist handed to the store's
    [updatePlaylist] is the playlist of the result; its tracks are the
    matched tracks, and its cover art is the cover art of the first of them
    when that track has one (a truthy value), and [undefined] when it has
    none ([undefined], [null] or the empty string). *)
Theorem importPlaylist_cover_art
    (w : World) (url_ : string) (onProgress : bool) (h h' : History)
    (r : ImportResult) :
  importPlaylist w url_ onProgress h = (Ok r, h') ->
  success r = true ->
  exists evs pl first others_,
    h' = h ++ evs /\
    playlist r = Some pl /\
    In (EvUpdatePlaylist pl) evs /\
    UserPlaylist.tracks pl = first :: others_ /\
    (JS.truthy (PlaylistTrack.coverArt first) = true ->
     UserPlaylist.coverArt pl = PlaylistTrack.coverArt first) /\
    (JS.truthy (PlaylistTrack.coverArt first) = false ->
     UserPlaylist.coverArt pl = VUndefined) /\
    (missingOrEmpty (PlaylistTrack.coverArt first) ->
     UserPlaylist.coverArt pl = VUndefined).
Proof.
  intros Hrun Hsuccess.
  apply importPlaylist_returns in Hrun as (evs & -> & Hcases).
  destruct Hcases as [(msg & -> & _)
                     |[(data & _ & -> & _)
                      |(pl & first & others_ & _ & _ & Hpl & Htr & _ & _
                        & Hc & Hin)]]; try discriminate.
  exists evs, pl, first, others_.
  repeat (split; [assumption || reflexivity|]).
  rewrite Hc. unfold JS.or_.
  split; [|split].
  - now intros ->.
  - now intros ->.
  - intros [E|[E|E]]; now rewrite E.
Qed.

Lemma importPlaylist_cover_art_witness :
  exists r evs pl,
    importPlaylist Sample.oneVideoQobuz Sample.youtubeUrl true [] = (Ok r, evs) /\
    playlist r = Some pl /\
    UserPlaylist.coverArt pl = VStr "https://img.example/c-1.jpg".
Proof.
  destruct (importPlaylist Sample.oneVideoQobuz Sample.youtubeUrl true [])
    as [[r|] evs] eqn:Hrun; [|vm_compute in Hrun; discriminate].
  assert (Hs : success r = true).
  { vm_compute in Hrun. inversion Hrun. reflexivity. }
  destruct (importPlaylist_cover_art Sample.oneVideoQobuz Sample.youtubeUrl
              true [] evs r Hrun Hs)
    as (evs' & pl & first & others_ & _ & Hpl & _ & Htr & Hcover & _).
  exists r, evs, pl. split; [reflexivity|]. split; [exact Hpl|].
  vm_compute in Hrun. inversion Hrun; subst r; clear Hrun.
  cbn [playlist] in Hpl. inversion Hpl; subst pl; clear Hpl.
  reflexivity.
Defined.

(** C10.  There is a URL, the short link [https://spotify.link/abc123],
    that [detectPlatform] classifies as [spotify] and in which
    [parseSpotifyUrl] finds no identifier; on it [importPlaylist] returns
    the failure [Invalid Spotify playlist URL] and makes no request: the
    only event is the opening of the fetch stage, for a supplied
    callback. *)
Theorem spotify_short_link_is_rejected :
  exists url_,
    detectPlatform url_ = spotify /\
    parseSpotifyUrl url_ = None /\
    forall (w : World) (onProgress : bool) (h : History),
      importPlaylist w url_ onProgress h
      = (Ok {| success := false;
               playlist := None;
               totalTracks := 0;
               matchedTracks := 0;
               unmatchedTracks := [];
               error := Some "Invalid Spotify playlist URL"%string |},
         h ++ (if onProgress then [fetchingEvent spotify] else [])) /\
      fetchedUrls (snd (importPlaylist w url_ onProgress h)) = fetchedUrls h.
Proof.
  exists "https://spotify.link/abc123"%string.
  assert (Hd : detectPlatform "https://spotify.link/abc123" = spotify)
    by reflexivity.
  assert (Hp : parseSpotifyUrl "https://spotify.link/abc123" = None)
    by reflexivity.
  split; [exact Hd|]. split; [exact Hp|].
  intros w onProgress h.
  assert (Hrun : importPlaylist w "https://spotify.link/abc123" onProgress h
                 = (Ok (failed 0 [] "Invalid Spotify playlist URL"),
                    h ++ (if onProgress then [fetchingEvent spotify] else []))).
  { rewrite importPlaylist_known by (rewrite Hd; discriminate).
    rewrite Hd. unfold fetchByPlatform. rewrite Hp. reflexivity. }
  split; [exact Hrun|].
  rewrite Hrun. cbn [snd]. unfold fetchedUrls. rewrite flat_map_app.
  destruct onProgress; simpl; now rewrite app_nil_r.
Qed.

(* ====================================================================== *)
(** * Further properties *)
(* ====================================================================== *)

(* ====================================================================== *)
(** ** The URL parsers *)
(* ====================================================================== *)

Local Open Scope string_scope.

Lemma string_app_assoc (a b c : string) : (a ++ b) ++ c = a ++ b ++ c.
Proof. induction a as [|x a IH]; simpl; [reflexivity | now rewrite IH]. Qed.

Lemma stripPrefix_iff (p s r : string) :
  Str.stripPrefix p s = Some r <-> s = p ++ r.
Proof.
  revert s; induction p as [|a p IH]; intros s; simpl.
  - split; [now intros [= ->] | now intros ->].
  - destruct s as [|b s]; [split; discriminate|].
    destruct (Ascii.eqb_spec a b) as [->|Hab].
    + rewrite IH. split; [now intros -> | now intros [= ->]].
    + split; [discriminate | intros [= E _]; congruence].
Qed.

Lemma span_spec (p : ascii -> bool) (s run rest : string) :
  Str.span p s = (run, rest) ->
  s = run ++ rest /\ allChars p run = true /\ stopsAt p rest = true.
Proof.
  revert run rest; induction s as [|c s IH]; intros run rest; simpl.
  - now intros [= <- <-].
  - destruct (p c) eqn:Hc.
    + destruct (Str.span p s) as [run' rest'].
      intros [= <- <-].
      destruct (IH run' rest' eq_refl) as (-> & Hall & Hstop).
      simpl. now rewrite Hc, Hall.
    + intros [= <- <-]. simpl. now rewrite Hc.
Qed.

Lemma span_app (p : ascii -> bool) (run rest : string) :
  allChars p run = true -> stopsAt p rest = true ->
  Str.span p (run ++ rest) = (run, rest).
Proof.
  induction run as [|c run IH]; simpl; intros Hall Hstop.
  - destruct rest as [|d rest]; [reflexivity|].
    cbn [stopsAt] in Hstop. cbn [Str.span]. now destruct (p d).
  - apply andb_true_iff in Hall as [-> Hall]. now rewrite IH.
Qed.

Lemma searchFrom_Some {A : Type} (m : string -> option A) (s : string) (a : A) :
  Str.searchFrom m s = Some a ->
  exists pre suf, s = pre ++ suf /\ m suf = Some a.
Proof.
  induction s as [|c s IH]; simpl.
  - destruct (m "") eqn:E; [|discriminate]. intros [= <-]. now exists "", "".
  - destruct (m (String c s)) eqn:E.
    + intros [= <-]. now exists "", (String c s).
    + intros H. destruct (IH H) as (pre & suf & -> & Hm).
      now exists (String c pre), suf.
Qed.

Lemma searchFrom_None {A : Type} (m : string -> option A) (s : string) :
  Str.searchFrom m s = None <-> forall pre suf, s = pre ++ suf -> m suf = None.
Proof.
  induction s as [|c s IH]; simpl.
  - destruct (m "") eqn:E.
    + split; [discriminate|]. intros H. rewrite <- E. now apply (H "" "").
    + split; [|reflexivity]. intros _ [|x pre] suf; [|discriminate].
      simpl. now intros <-.
  - destruct (m (String c s)) eqn:E.
    + split; [discriminate|]. intros H. rewrite <- E. now apply (H "" _).
    + rewrite IH. split.
      * intros H [|x pre] suf; simpl.
        -- now intros <-.
        -- intros [= _ ->]. now apply (H pre).
      * intros H pre suf ->. now apply (H (String c pre)).
Qed.

(** The matcher of [parseSpotifyUrl] at one position. *)
Lemma spotifyIdAt_iff (s id : string) :
  spotifyIdAt s = Some id <->
  id <> "" /\ allChars Str.isAlnum id = true /\
  exists post, s = "playlist/" ++ id ++ post /\ stopsAt Str.isAlnum post = true.
Proof.
  unfold spotifyIdAt. split.
  - destruct (Str.stripPrefix "playlist/" s) as [rest|] eqn:E; [|discriminate].
    apply stripPrefix_iff in E as ->.
    destruct (Str.span Str.isAlnum rest) as [run post] eqn:Hspan.
    apply span_spec in Hspan as (-> & Hall & Hstop).
    cbn [fst]. destruct run as [|c run]; [discriminate|].
    intros [= <-]. repeat split; [discriminate | exact Hall | now exists post].
  - intros (Hne & Hall & post & -> & Hstop).
    assert (E : Str.stripPrefix "playlist/" ("playlist/" ++ id ++ post)
                = Some (id ++ post)) by now apply stripPrefix_iff.
    rewrite E, (span_app _ _ _ Hall Hstop). cbn [fst].
    destruct id; [contradiction | reflexivity].
Qed.

Lemma spotifyIdAt_None (s : string) :
  spotifyIdAt s = None <->
  forall c post, s = "playlist/" ++ String c post -> Str.isAlnum c = false.
Proof.
  split.
  - intros H c post ->. destruct (Str.isAlnum c) eqn:Hc; [|reflexivity].
    exfalso. revert H. unfold spotifyIdAt.
    assert (E : Str.stripPrefix "playlist/" ("playlist/" ++ String c post)
                = Some (String c post)) by now apply stripPrefix_iff.
    rewrite E. simpl. rewrite Hc.
    destruct (Str.span Str.isAlnum post). discriminate.
  - intros H. destruct (spotifyIdAt s) as [id|] eqn:E; [|reflexivity].
    apply spotifyIdAt_iff in E as (Hne & Hall & post & -> & _).
    destruct id as [|c id]; [contradiction|].
    simpl in Hall. apply andb_true_iff in Hall as [Hc _].
    now rewrite (H c (id ++ post) eq_refl) in Hc.
Qed.

(** X1.  What [parseSpotifyUrl] returns is a non-empty run of letters and
    digits that follows some [playlist/] in the URL and is not continued by
    a letter or digit; it returns nothing exactly when no [playlist/] of the
    URL is followed by a letter or digit. *)
Theorem parseSpotifyUrl_spec (url_ : string) :
  (forall id_, parseSpotifyUrl url_ = Some id_ ->
     id_ <> "" /\ allChars Str.isAlnum id_ = true /\
     exists pre post,
       url_ = pre ++ "playlist/" ++ id_ ++ post /\
       stopsAt Str.isAlnum post = true) /\
  (parseSpotifyUrl url_ = None <->
   forall pre c post,
     url_ = pre ++ "playlist/" ++ String c post -> Str.isAlnum c = false).
Proof.
  unfold parseSpotifyUrl. split.
  - intros id_ H.
    apply searchFrom_Some in H as (pre & suf & -> & H).
    apply spotifyIdAt_iff in H as (Hne & Hall & post & -> & Hstop).
    repeat split; auto. now exists pre, post.
  - rewrite searchFrom_None. split.
    + intros H pre c post ->.
      exact (proj1 (spotifyIdAt_None _) (H pre _ eq_refl) c post eq_refl).
    + intros H pre suf ->. apply spotifyIdAt_None.
      intros c post ->. now apply (H pre c post).
Qed.

Lemma parseSpotifyUrl_spec_witness :
  "37i9dQZF1DXcBWIGoYBM5M" <> "" /\
  allChars Str.isAlnum "37i9dQZF1DXcBWIGoYBM5M" = true.
Proof.
  destruct (proj1 (parseSpotifyUrl_spec
                     "https://open.spotify.com/playlist/37i9dQZF1DXcBWIGoYBM5M?si=abc")
              "37i9dQZF1DXcBWIGoYBM5M" eq_refl)
    as (Hne & Hall & _).
  split; [exact Hne | exact Hall].
Defined.

(** The matcher of [parseYouTubeMusicUrl] at one position. *)
Lemma listIdAt_iff (s id_ : string) :
  listIdAt s = Some id_ <->
  id_ <> "" /\ allChars Str.isListIdChar id_ = true /\
  exists c post,
    (c = "?"%char \/ c = "&"%char) /\
    s = String c ("list=" ++ id_ ++ post) /\
    stopsAt Str.isListIdChar post = true.
Proof.
  unfold listIdAt. split.
  - destruct s as [|c s]; [discriminate|].
    destruct (Ascii.eqb c "?" || Ascii.eqb c "&")%bool eqn:Hc; [|discriminate].
    destruct (Str.stripPrefix "list=" s) as [rest|] eqn:E; [|discriminate].
    apply stripPrefix_iff in E as ->.
    destruct (Str.span Str.isListIdChar rest) as [run post] eqn:Hspan.
    apply span_spec in Hspan as (-> & Hall & Hstop).
    cbn [fst]. destruct run as [|d run]; [discriminate|].
    intros [= <-]. repeat split; [discriminate | exact Hall |].
    exists c, post. repeat split; auto.
    apply orb_true_iff in Hc as [Hc|Hc]; apply Ascii.eqb_eq in Hc; auto.
  - intros (Hne & Hall & c & post & Hc & -> & Hstop).
    assert (Hc' : (Ascii.eqb c "?" || Ascii.eqb c "&")%bool = true)
      by (destruct Hc as [-> | ->]; reflexivity).
    rewrite Hc'.
    assert (E : Str.stripPrefix "list=" ("list=" ++ id_ ++ post)
                = Some (id_ ++ post)) by now apply stripPrefix_iff.
    rewrite E, (span_app _ _ _ Hall Hstop). cbn [fst].
    destruct id_; [contradiction | reflexivity].
Qed.

(** X2.  What [parseYouTubeMusicUrl] returns is a non-empty run of letters,
    digits, underscores and hyphens that follows some [?list=] or [&list=]
    in the URL and is not continued by such a character; it returns nothing
    exactly when the URL has no [?list=] or [&list=] followed by such a
    character. *)
Theorem parseYouTubeMusicUrl_spec (url_ : string) :
  (forall id_, parseYouTubeMusicUrl url_ = Some id_ ->
     id_ <> "" /\ allChars Str.isListIdChar id_ = true /\
     exists pre c post,
       (c = "?"%char \/ c = "&"%char) /\
       url_ = pre ++ String c ("list=" ++ id_ ++ post) /\
       stopsAt Str.isListIdChar post = true) /\
  (parseYouTubeMusicUrl url_ = None <->
   forall pre c d post,
     (c = "?"%char \/ c = "&"%char) ->
     url_ = pre ++ String c ("list=" ++ String d post) ->
     Str.isListIdChar d = false).
Proof.
  unfold parseYouTubeMusicUrl. split.
  - intros id_ H.
    apply searchFrom_Some in H as (pre & suf & -> & H).
    apply listIdAt_iff in H as (Hne & Hall & c & post & Hc & -> & Hstop).
    repeat split; auto. now exists pre, c, post.
  - rewrite searchFrom_None. split.
    + intros H pre c d post Hc ->.
      destruct (Str.isListIdChar d) eqn:Hd; [|reflexivity].
      exfalso.
      destruct (Str.span Str.isListIdChar post) as [run post'] eqn:Hspan.
      apply span_spec in Hspan as (-> & Hall & Hstop).
      assert (Hm : listIdAt (String c ("list=" ++ String d (run ++ post')))
                   = Some (String d run)).
      { apply (proj2 (listIdAt_iff _ _)). repeat split.
        - discriminate.
        - simpl. now rewrite Hd, Hall.
        - exists c, post'. repeat split; auto. }
      now rewrite (H pre _ eq_refl) in Hm.
    + intros H pre suf ->.
      destruct (listIdAt suf) as [id_|] eqn:E; [|reflexivity].
      apply listIdAt_iff in E as (Hne & Hall & c & post & Hc & -> & _).
      destruct id_ as [|d id_]; [contradiction|].
      simpl in Hall. apply andb_true_iff in Hall as [Hd _].
      now rewrite (H pre c d (id_ ++ post) Hc eq_refl) in Hd.
Qed.

Lemma parseYouTubeMusicUrl_spec_witness :
  "PLx-y_z" <> "" /\ allChars Str.isListIdChar "PLx-y_z" = true.
Proof.
  destruct (proj1 (parseYouTubeMusicUrl_spec
                     "https://music.youtube.com/playlist?list=PLx-y_z&si=1")
              "PLx-y_z" eq_refl)
    as (Hne & Hall & _).
  split; [exact Hne | exact Hall].
Defined.

(** The matcher of [parseAppleMusicUrl] at one position. *)
Lemma appleRefAt_iff (s : string) (ref : AppleRef) :
  appleRefAt s = Some ref <->
  exists c1 c2 name_ code post,
    s = "music.apple.com/"
        ++ String c1 (String c2 ("/playlist/" ++ name_ ++ "/pl." ++ code ++ post)) /\
    Str.isLower c1 = true /\ Str.isLower c2 = true /\
    name_ <> "" /\ allChars notSlash name_ = true /\
    code <> "" /\ allChars Str.isAlnum code = true /\
    stopsAt Str.isAlnum post = true /\
    ref = {| storefront := String c1 (String c2 ""); id := "pl." ++ code |}.
Proof.
  unfold appleRefAt. split.
  - destruct (Str.stripPrefix "music.apple.com/" s) as [r0|] eqn:E0;
      [|discriminate].
    apply stripPrefix_iff in E0 as ->.
    destruct r0 as [|c1 [|c2 rest]]; try discriminate.
    destruct (Str.isLower c1 && Str.isLower c2)%bool eqn:Hl; [|discriminate].
    apply andb_true_iff in Hl as [Hl1 Hl2].
    destruct (Str.stripPrefix "/playlist/" rest) as [rest1|] eqn:E1;
      [|discriminate].
    apply stripPrefix_iff in E1 as ->.
    destruct (Str.span (fun c => negb (Ascii.eqb c "/")) rest1)
      as [name_ rest2] eqn:Hspan.
    apply span_spec in Hspan as (-> & Hname & _).
    destruct name_ as [|n name_]; [discriminate|].
    destruct (Str.stripPrefix "/pl." rest2) as [rest3|] eqn:E3; [|discriminate].
    apply stripPrefix_iff in E3 as ->.
    destruct (Str.span Str.isAlnum rest3) as [code post] eqn:Hspan.
    apply span_spec in Hspan as (-> & Hcode & Hstop).
    cbn [fst]. destruct code as [|d code]; [discriminate|].
    intros [= <-].
    exists c1, c2, (String n name_), (String d code), post.
    repeat split; auto; discriminate.
  - intros (c1 & c2 & name_ & code & post & -> & Hl1 & Hl2 & Hn & Hname
            & Hc & Hcode & Hstop & ->).
    assert (E0 : forall r, Str.stripPrefix "music.apple.com/"
                             ("music.apple.com/" ++ r) = Some r)
      by (intros r; now apply stripPrefix_iff).
    rewrite E0, Hl1, Hl2. cbn [andb].
    assert (E1 : forall r, Str.stripPrefix "/playlist/" ("/playlist/" ++ r)
                           = Some r)
      by (intros r; now apply stripPrefix_iff).
    rewrite E1.
    assert (Hspan : Str.span (fun c => negb (Ascii.eqb c "/"))
                      (name_ ++ "/pl." ++ code ++ post)
                    = (name_, "/pl." ++ code ++ post))
      by (apply span_app; [exact Hname | reflexivity]).
    rewrite Hspan.
    destruct name_ as [|n name_]; [contradiction|].
    assert (E3 : forall r, Str.stripPrefix "/pl." ("/pl." ++ r) = Some r)
      by (intros r; now apply stripPrefix_iff).
    rewrite E3, (span_app _ _ _ Hcode Hstop). cbn [fst].
    destruct code; [contradiction | reflexivity].
Qed.

(** X3.  What [parseAppleMusicUrl] returns comes from a place of the URL of
    the form [music.apple.com/cc/playlist/name/pl.code]: the storefront is
    the two lower-case letters [cc], the name is non-empty and without
    slash, and the identifier is [pl.] with the non-empty run of letters and
    digits that follows it; and a URL with such a place is never refused. *)
Theorem parseAppleMusicUrl_spec (url_ : string) :
  (forall ref, parseAppleMusicUrl url_ = Some ref ->
     exists pre c1 c2 name_ code post,
       url_ = pre ++ "music.apple.com/"
              ++ String c1 (String c2
                   ("/playlist/" ++ name_ ++ "/pl." ++ code ++ post)) /\
       Str.isLower c1 = true /\ Str.isLower c2 = true /\
       name_ <> "" /\ allChars notSlash name_ = true /\
       code <> "" /\ allChars Str.isAlnum code = true /\
       stopsAt Str.isAlnum post = true /\
       storefront ref = String c1 (String c2 "") /\
       id ref = "pl." ++ code) /\
  (forall pre c1 c2 name_ code post,
     url_ = pre ++ "music.apple.com/"
            ++ String c1 (String c2
                 ("/playlist/" ++ name_ ++ "/pl." ++ code ++ post)) ->
     Str.isLower c1 = true -> Str.isLower c2 = true ->
     name_ <> "" -> allChars notSlash name_ = true ->
     code <> "" -> allChars Str.isAlnum code = true ->
     parseAppleMusicUrl url_ <> None).
Proof.
  unfold parseAppleMusicUrl. split.
  - intros ref H.
    apply searchFrom_Some in H as (pre & suf & -> & H).
    apply appleRefAt_iff in H
      as (c1 & c2 & name_ & code & post & -> & H1 & H2 & H3 & H4 & H5 & H6
          & H7 & ->).
    exists pre, c1, c2, name_, code, post. repeat split; auto.
  - intros pre c1 c2 name_ code post -> H1 H2 H3 H4 H5 H6 Hnone.
    rewrite searchFrom_None in Hnone.
    specialize (Hnone pre _ eq_refl).
    destruct (Str.span Str.isAlnum post) as [run post'] eqn:Hspan.
    apply span_spec in Hspan as (-> & Hall & Hstop).
    assert (Hm : appleRefAt
                   ("music.apple.com/"
                    ++ String c1 (String c2
                         ("/playlist/" ++ name_ ++ "/pl." ++ (code ++ run)
                          ++ post')))
                 = Some {| storefront := String c1 (String c2 "");
                           id := "pl." ++ code ++ run |}).
    { apply appleRefAt_iff.
      exists c1, c2, name_, (code ++ run), post'.
      repeat split; auto.
      - destruct code; [contradiction | discriminate].
      - clear - H6 Hall. induction code as [|d code IH]; simpl in *; auto.
        apply andb_true_iff in H6 as [-> H6]. now apply IH. }
    rewrite string_app_assoc in Hm. rewrite Hnone in Hm. discriminate.
Qed.

Lemma parseAppleMusicUrl_spec_witness :
  parseAppleMusicUrl "https://music.apple.com/us/playlist/foo/pl.abc123?l=en"
  <> None.
Proof.
  refine (proj2 (parseAppleMusicUrl_spec
                   "https://music.apple.com/us/playlist/foo/pl.abc123?l=en")
            "https://" "u"%char "s"%char "foo" "abc123" "?l=en"
            eq_refl eq_refl eq_refl _ eq_refl _ eq_refl);
    discriminate.
Defined.

Lemma searchFrom_skip {A : Type} (m : string -> option A) (c : ascii)
    (s : string) :
  m (String c s) = None -> Str.searchFrom m (String c s) = Str.searchFrom m s.
Proof. intros H. simpl. now rewrite H. Qed.

Lemma searchFrom_hit {A : Type} (m : string -> option A) (s : string) (a : A) :
  m s = Some a -> Str.searchFrom m s = Some a.
Proof. intros H. destruct s; simpl; now rewrite H. Qed.

(** X4.  A share link of Apple Music gives back its parts:
    [https://music.apple.com/cc/playlist/name/pl.code] followed by nothing
    or by something that does not continue the code (a query string, say)
    is parsed to the storefront [cc] and the identifier [pl.code]. *)
Theorem parseAppleMusicUrl_share_link
    (c1 c2 : ascii) (name_ code rest : string) :
  Str.isLower c1 = true -> Str.isLower c2 = true ->
  name_ <> "" -> allChars notSlash name_ = true ->
  code <> "" -> allChars Str.isAlnum code = true ->
  stopsAt Str.isAlnum rest = true ->
  parseAppleMusicUrl
    ("https://music.apple.com/"
     ++ String c1 (String c2 ("/playlist/" ++ name_ ++ "/pl." ++ code ++ rest)))
  = Some {| storefront := String c1 (String c2 ""); id := "pl." ++ code |}.
Proof.
  intros H1 H2 H3 H4 H5 H6 H7.
  unfold parseAppleMusicUrl. cbn [append].
  repeat (rewrite searchFrom_skip by reflexivity).
  apply searchFrom_hit, appleRefAt_iff.
  exists c1, c2, name_, code, rest. repeat split; auto.
Qed.

Lemma parseAppleMusicUrl_share_link_witness :
  parseAppleMusicUrl "https://music.apple.com/us/playlist/foo/pl.abc123?l=en"
  = Some {| storefront := "us"; id := "pl.abc123" |}.
Proof.
  refine (parseAppleMusicUrl_share_link "u" "s" "foo" "abc123" "?l=en"
            eq_refl eq_refl _ eq_refl _ eq_refl eq_refl);
    discriminate.
Defined.

(** X5.  A share link of YouTube Music gives back its list:
    [https://music.youtube.com/playlist?list=ID] followed by nothing or by
    something that does not continue the identifier (a further parameter,
    say) is parsed to [ID]. *)
Theorem parseYouTubeMusicUrl_share_link (id_ rest : string) :
  id_ <> "" -> allChars Str.isListIdChar id_ = true ->
  stopsAt Str.isListIdChar rest = true ->
  parseYouTubeMusicUrl ("https://music.youtube.com/playlist?list=" ++ id_ ++ rest)
  = Some id_.
Proof.
  intros H1 H2 H3.
  unfold parseYouTubeMusicUrl. cbn [append].
  repeat (rewrite searchFrom_skip by reflexivity).
  apply searchFrom_hit, listIdAt_iff.
  repeat split; auto. exists "?"%char, rest. auto.
Qed.

Lemma parseYouTubeMusicUrl_share_link_witness :
  parseYouTubeMusicUrl "https://music.youtube.com/playlist?list=PLx-y_z&si=1"
  = Some "PLx-y_z".
Proof.
  refine (parseYouTubeMusicUrl_share_link "PLx-y_z" "&si=1" _ eq_refl eq_refl).
  discriminate.
Defined.

Lemma parseSpotifyUrl_open_link (id_ rest : string) :
  id_ <> "" -> allChars Str.isAlnum id_ = true ->
  stopsAt Str.isAlnum rest = true ->
  parseSpotifyUrl ("https://open.spotify.com/playlist/" ++ id_ ++ rest)
  = Some id_.
Proof.
  intros H1 H2 H3.
  unfold parseSpotifyUrl. cbn [append].
  repeat (rewrite searchFrom_skip by reflexivity).
  apply searchFrom_hit, spotifyIdAt_iff.
  repeat split; auto. now exists rest.
Qed.

(** X6.  A URL that [parseAppleMusicUrl] accepts is classified [apple] by
    [detectPlatform], unless it also names a Spotify domain, which comes
    first. *)
Theorem parseAppleMusicUrl_accepts_apple (url_ : string) (ref : AppleRef) :
  parseAppleMusicUrl url_ = Some ref ->
  (~ spotifyDomain url_ -> detectPlatform url_ = apple) /\
  (spotifyDomain url_ -> detectPlatform url_ = spotify).
Proof.
  intros H.
  apply searchFrom_Some in H as (pre & suf & -> & H).
  apply appleRefAt_iff in H as (c1 & c2 & name_ & code & post & -> & _).
  assert (Happle : Str.includes (Str.toLowerCase
                     (pre ++ "music.apple.com/"
                      ++ String c1 (String c2
                           ("/playlist/" ++ name_ ++ "/pl." ++ code ++ post))))
                     "music.apple.com" = true).
  { apply includes_lower_iff.
    exists pre, "music.apple.com",
      ("/" ++ String c1 (String c2
                ("/playlist/" ++ name_ ++ "/pl." ++ code ++ post))).
    split; reflexivity. }
  unfold spotifyDomain, detectPlatform. cbv zeta.
  rewrite <- either_includes, Happle. cbn [orb].
  split; intros Hs.
  - apply not_true_is_false in Hs. now rewrite Hs.
  - now rewrite Hs.
Qed.

Lemma parseAppleMusicUrl_accepts_apple_witness :
  detectPlatform "https://music.apple.com/us/playlist/foo/pl.abc123" = apple.
Proof.
  refine (proj1 (parseAppleMusicUrl_accepts_apple
                   "https://music.apple.com/us/playlist/foo/pl.abc123"
                   {| storefront := "us"; id := "pl.abc123" |} eq_refl) _).
  unfold spotifyDomain. rewrite <- either_includes. discriminate.
Defined.

Local Open Scope list_scope.

(* ====================================================================== *)
(** ** The fetchers, when things go wrong *)
(* ====================================================================== *)

(** X7.  The Apple Music fetcher makes exactly one request and never
    raises.  It returns no result when the request fails, when the status
    is not OK, when the body is not JSON and when the payload has no first
    [data] entry; otherwise the track array is mapped, and a playlist
    without track data comes back as a playlist with no tracks. *)
Theorem fetchAppleMusicPlaylist_outcomes
    (w : World) (storefront_ playlistId : string) (h : History) :
  let request := appleRequest storefront_ playlistId in
  let run := fetchAppleMusicPlaylist w storefront_ playlistId h in
  snd run = h ++ [EvFetch request] /\
  (exists r, fst run = Ok r) /\
  (fetch w h request = Throw -> fst run = Ok None) /\
  (forall response,
     fetch w h request = Ok response ->
     (ok response = false -> fst run = Ok None) /\
     (ok response = true -> json response = Throw -> fst run = Ok None) /\
     (forall payload,
        ok response = true -> json response = Ok payload ->
        let playlist_ := JS.optIndex0 (JS.optGet payload "data") in
        (JS.truthy playlist_ = false -> fst run = Ok None) /\
        (forall raw mapped,
           JS.truthy playlist_ = true ->
           appleTrackData playlist_ = VArr raw ->
           mapRes (appleTrack w) raw = Ok mapped ->
           fst run
           = Ok (Some {| name := JS.or_
                                   (JS.optGet (JS.prop playlist_ "attributes")
                                      "name")
                                   (VStr "Apple Music Playlist");
                         tracks := mapped |})) /\
        (JS.truthy playlist_ = true ->
         JS.truthy
           (JS.optGet (JS.optGet (JS.prop playlist_ "relationships") "tracks")
              "data") = false ->
         exists name_, fst run = Ok (Some {| name := name_; tracks := [] |})))).
Proof.
  cbv zeta.
  destruct (fetchAppleMusicPlaylist_run w storefront_ playlistId h) as [r Hrun].
  split; [now rewrite Hrun|]. split; [rewrite Hrun; now exists r|].
  clear r Hrun.
  unfold fetchAppleMusicPlaylist. unfoldM.
  fold (appleRequest storefront_ playlistId).
  split.
  { intros ->. reflexivity. }
  intros response ->. cbv beta iota.
  split; [intros ->; reflexivity|].
  split; [intros -> ->; reflexivity|].
  intros payload -> ->. cbv beta iota. cbn [negb].
  assert (Hnull : JS.nullish payload = true ->
                  JS.optIndex0 (JS.optGet payload "data") = VUndefined).
  { unfold JS.optGet. now intros ->. }
  assert (Hget : JS.nullish payload = false ->
                 JS.optGet payload "data" = JS.prop payload "data").
  { unfold JS.optGet. now intros ->. }
  unfold JS.get.
  destruct (JS.nullish payload) eqn:Hp.
  - rewrite (Hnull eq_refl). cbn [JS.truthy].
    split; [reflexivity|]. split; [discriminate | discriminate].
  - rewrite (Hget eq_refl). cbv beta iota.
    split; [intros ->; reflexivity|].
    split.
    + intros raw mapped -> Hraw Hm. cbn [negb]. cbv beta iota.
      rewrite Hraw. cbn [JS.mapArray]. now rewrite Hm.
    + intros -> Hd. cbn [negb]. cbv beta iota.
      unfold appleTrackData, JS.or_. rewrite Hd.
      cbn [JS.mapArray mapRes]. cbv beta iota. cbn [fst]. eexists. reflexivity.
Qed.

Lemma fetchAppleMusicPlaylist_outcomes_witness :
  fst (fetchAppleMusicPlaylist Sample.offline "us" "pl.abc" []) = Ok None.
Proof.
  exact (proj1 (proj2 (proj2
           (fetchAppleMusicPlaylist_outcomes Sample.offline "us" "pl.abc" [])))
           eq_refl).
Defined.

(** An instance that is down: the turn of the loop ends without result. *)
Lemma fetchFromInstance_down (w : World) (instance playlistId : string)
    (h : History) :
  (fetch w h (invidiousRequest instance playlistId) = Throw \/
   exists response,
     fetch w h (invidiousRequest instance playlistId) = Ok response /\
     ok response = false) ->
  fetchFromInstance w instance playlistId h
  = (Ok None, h ++ [EvFetch (invidiousRequest instance playlistId)]).
Proof.
  unfold fetchFromInstance. unfoldM.
  fold (invidiousRequest instance playlistId).
  intros [-> | (response & -> & Hok)]; [reflexivity|].
  cbv beta iota. now rewrite Hok.
Qed.

(** An instance that answers: the turn of the loop returns its playlist. *)
Lemma fetchFromInstance_up (w : World) (instance playlistId : string)
    (h : History) (response : Response) (payload : value)
    (raw : list value) (mapped : list ImportedTrack) :
  fetch w h (invidiousRequest instance playlistId) = Ok response ->
  ok response = true ->
  json response = Ok payload ->
  JS.nullish payload = false ->
  youtubeVideos payload = VArr raw ->
  mapRes youtubeTrack raw = Ok mapped ->
  fetchFromInstance w instance playlistId h
  = (Ok (Some {| name := JS.or_ (JS.prop payload "title")
                           (VStr "YouTube Music Playlist");
                 tracks := mapped |}),
     h ++ [EvFetch (invidiousRequest instance playlistId)]).
Proof.
  intros Hf Hok Hj Hn Hv Hm.
  unfold fetchFromInstance. unfoldM.
  fold (invidiousRequest instance playlistId).
  rewrite Hf. cbv beta iota. rewrite Hok. cbn [negb]. cbv beta iota.
  rewrite Hj. cbv beta iota. unfold JS.get. rewrite Hn. cbv beta iota.
  rewrite Hv. cbn [JS.mapArray]. now rewrite Hm.
Qed.

(** X8.  The YouTube Music fetcher asks its three Invidious instances in
    the order of the list, one request each, and never raises.  It stops at
    the first instance that answers OK with a payload it can map, so a
    working first instance costs one request, and a second instance is
    asked when the first is down.  A payload without videos ends the search
    with a playlist without tracks.  No result is returned only after all
    three instances were asked, and it is returned when all are down. *)
Theorem fetchYouTubeMusicPlaylist_instances
    (w : World) (playlistId : string) (h : History) :
  let request1 := invidiousRequest "https://invidious.io.lol" playlistId in
  let request2 := invidiousRequest "https://inv.nadeko.net" playlistId in
  let request3 := invidiousRequest "https://invidious.nerdvpn.de" playlistId in
  let down (h0 : History) (rq : Request) :=
    fetch w h0 rq = Throw \/
    exists response, fetch w h0 rq = Ok response /\ ok response = false in
  let up (h0 : History) (rq : Request) (data : PlaylistData) :=
    exists response payload raw,
      fetch w h0 rq = Ok response /\ ok response = true /\
      json response = Ok payload /\ JS.nullish payload = false /\
      youtubeVideos payload = VArr raw /\
      mapRes youtubeTrack raw = Ok (tracks data) /\
      name data = JS.or_ (JS.prop payload "title")
                    (VStr "YouTube Music Playlist") in
  let run := fetchYouTubeMusicPlaylist w playlistId h in
  (exists r, fst run = Ok r) /\
  (snd run = h ++ [EvFetch request1] \/
   snd run = h ++ [EvFetch request1; EvFetch request2] \/
   snd run = h ++ [EvFetch request1; EvFetch request2; EvFetch request3]) /\
  (fst run = Ok None ->
   snd run = h ++ [EvFetch request1; EvFetch request2; EvFetch request3]) /\
  (forall data, up h request1 data ->
     run = (Ok (Some data), h ++ [EvFetch request1])) /\
  (forall data,
     down h request1 -> up (h ++ [EvFetch request1]) request2 data ->
     run = (Ok (Some data), h ++ [EvFetch request1; EvFetch request2])) /\
  (forall response payload,
     fetch w h request1 = Ok response -> ok response = true ->
     json response = Ok payload -> JS.nullish payload = false ->
     JS.truthy (JS.prop payload "videos") = false ->
     exists name_,
       run = (Ok (Some {| name := name_; tracks := [] |}),
              h ++ [EvFetch request1])) /\
  (down h request1 ->
   down (h ++ [EvFetch request1]) request2 ->
   down (h ++ [EvFetch request1; EvFetch request2]) request3 ->
   run = (Ok None,
          h ++ [EvFetch request1; EvFetch request2; EvFetch request3])).
Proof.
  cbv zeta.
  assert (Hup : forall instance h0 data,
            (exists response payload raw,
               fetch w h0 (invidiousRequest instance playlistId) = Ok response /\
               ok response = true /\ json response = Ok payload /\
               JS.nullish payload = false /\
               youtubeVideos payload = VArr raw /\
               mapRes youtubeTrack raw = Ok (tracks data) /\
               name data = JS.or_ (JS.prop payload "title")
                             (VStr "YouTube Music Playlist")) ->
            fetchFromInstance w instance playlistId h0
            = (Ok (Some data),
               h0 ++ [EvFetch (invidiousRequest instance playlistId)])).
  { intros instance h0 [name_ tracks_]
           (response & payload & raw & Hf & Hok & Hj & Hn & Hv & Hm & Hname).
    cbn [tracks name] in Hm, Hname. subst name_.
    now apply (fetchFromInstance_up w instance playlistId h0 response payload raw). }
  destruct (fetchFromInstance_run w "https://invidious.io.lol" playlistId h)
    as [a1 E1].
  destruct (fetchFromInstance_run w "https://inv.nadeko.net" playlistId
              (h ++ [EvFetch (invidiousRequest "https://invidious.io.lol"
                                playlistId)]))
    as [a2 E2].
  destruct (fetchFromInstance_run w "https://invidious.nerdvpn.de" playlistId
              (h ++ [EvFetch (invidiousRequest "https://invidious.io.lol"
                                playlistId);
                     EvFetch (invidiousRequest "https://inv.nadeko.net"
                                playlistId)]))
    as [a3 E3].
  rewrite <- app_assoc in E2, E3. cbn [app] in E2, E3.
  assert (Hrun :
    fetchYouTubeMusicPlaylist w playlistId h
    = match a1 with
      | Some data =>
          (Ok (Some data),
           h ++ [EvFetch (invidiousRequest "https://invidious.io.lol" playlistId)])
      | None =>
          match a2 with
          | Some data =>
              (Ok (Some data),
               h ++ [EvFetch (invidiousRequest "https://invidious.io.lol"
                                playlistId);
                     EvFetch (invidiousRequest "https://inv.nadeko.net"
                                playlistId)])
          | None =>
              (Ok a3,
               h ++ [EvFetch (invidiousRequest "https://invidious.io.lol"
                                playlistId);
                     EvFetch (invidiousRequest "https://inv.nadeko.net"
                                playlistId);
                     EvFetch (invidiousRequest "https://invidious.nerdvpn.de"
                                playlistId)])
          end
      end).
  { unfold fetchYouTubeMusicPlaylist, INVIDIOUS_INSTANCES.
    cbn [fetchFromInstances]. unfold bind, ret.
    rewrite E1. destruct a1; [reflexivity|].
    rewrite E2. destruct a2; [reflexivity|].
    rewrite E3. now destruct a3. }
  rewrite Hrun. clear Hrun.
  split; [|split; [|split; [|split; [|split; [|split]]]]].
  - destruct a1; [|destruct a2]; cbn [fst]; eauto.
  - destruct a1; [|destruct a2]; cbn [snd]; auto.
  - destruct a1; [|destruct a2]; cbn [fst snd]; intros H; try discriminate H;
      reflexivity.
  - intros data H. apply Hup in H. rewrite H in E1.
    inversion E1; subst. reflexivity.
  - intros data Hd H. apply fetchFromInstance_down in Hd. rewrite Hd in E1.
    inversion E1; subst.
    apply Hup in H. rewrite H in E2. inversion E2; subst. reflexivity.
  - intros response payload Hf Hok Hj Hn Hv.
    assert (Hvideos : youtubeVideos payload = VArr []).
    { unfold youtubeVideos, JS.or_. now rewrite Hv. }
    rewrite (fetchFromInstance_up w _ playlistId h response payload [] []
               Hf Hok Hj Hn Hvideos eq_refl) in E1.
    inversion E1; subst. eauto.
  - intros H1 H2 H3.
    apply fetchFromInstance_down in H1, H2, H3.
    rewrite H1 in E1. inversion E1; subst.
    rewrite H2 in E2. inversion E2; subst.
    rewrite <- app_assoc in H3. cbn [app] in H3.
    rewrite H3 in E3. inversion E3; subst. reflexivity.
Qed.

Lemma fetchYouTubeMusicPlaylist_instances_witness :
  fetchYouTubeMusicPlaylist Sample.offline "PLxyz" []
  = (Ok None,
     [ EvFetch (invidiousRequest "https://invidious.io.lol" "PLxyz");
       EvFetch (invidiousRequest "https://inv.nadeko.net" "PLxyz");
       EvFetch (invidiousRequest "https://invidious.nerdvpn.de" "PLxyz") ]).
Proof.
  exact (proj2 (proj2 (proj2 (proj2 (proj2 (proj2
           (fetchYouTubeMusicPlaylist_instances Sample.offline "PLxyz" []))))))
           (or_introl eq_refl) (or_introl eq_refl) (or_introl eq_refl)).
Defined.

Lemma mapRes_Forall {A B : Type} (f : A -> Res B) (P : B -> Prop)
    (l : list A) (l' : list B) :
  (forall a b, f a = Ok b -> P b) ->
  mapRes f l = Ok l' -> Forall P l'.
Proof.
  intros Hf. revert l'; induction l as [|a l IH]; simpl; intros l' H.
  - inversion H. constructor.
  - destruct (f a) as [b|] eqn:E; [|discriminate].
    destruct (mapRes f l) as [bs|]; [|discriminate].
    inversion H; subst. constructor; [now apply (Hf a) | now apply IH].
Qed.

Lemma or_truthy (a b : value) :
  JS.truthy b = true -> JS.truthy (JS.or_ a b) = true.
Proof. unfold JS.or_. intros Hb. now destruct (JS.truthy a) eqn:Ha. Qed.

Lemma youtubeTrack_artist (v : value) (t : ImportedTrack) :
  youtubeTrack v = Ok t ->
  JS.truthy (artist t) = true /\ ~ missingOrEmpty (artist t) /\
  title t = JS.prop v "title" /\ album t = VUndefined.
Proof.
  unfold youtubeTrack, bindRes, JS.get.
  destruct (JS.nullish v); [discriminate|].
  intros [= <-]. cbn [artist title album].
  assert (H : JS.truthy
                (JS.or_ (JS.prop v "author")
                   (JS.or_ (JS.prop v "authorId") (VStr "Unknown Artist")))
              = true) by (apply or_truthy, or_truthy; reflexivity).
  repeat split; auto.
  intros [E|[E|E]]; rewrite E in H; discriminate.
Qed.



(** The name of a fetched playlist has a default. *)
Lemma spotifyDownStrategy_named (w : World) (playlistId : string)
    (h h' : History) (data : PlaylistData) :
  spotifyDownStrategy w playlistId h = (Ok (Some data), h') ->
  JS.truthy (name data) = true.
Proof.
  unfold spotifyDownStrategy. unfoldM.
  repeat branch; intros H; inversion H; subst; clear H.
  repeat match goal with
         | E : (_, _) = (_, _) |- _ => inversion E; subst; clear E
         end.
  now apply or_truthy.
Qed.

Lemma spotifyScraperStrategy_named (w : World) (playlistId : string)
    (h h' : History) (data : PlaylistData) :
  spotifyScraperStrategy w playlistId h = (Ok (Some data), h') ->
  JS.truthy (name data) = true.
Proof.
  unfold spotifyScraperStrategy. unfoldM.
  repeat branch; intros H; inversion H; subst; clear H.
  repeat match goal with
         | E : (_, _) = (_, _) |- _ => inversion E; subst; clear E
         end.
  now apply or_truthy.
Qed.

Lemma spotifyEmbedStrategy_named (w : World) (playlistId : string)
    (h h' : History) (data : PlaylistData) :
  spotifyEmbedStrategy w playlistId h = (Ok (Some data), h') ->
  JS.truthy (name data) = true.
Proof.
  unfold spotifyEmbedStrategy. unfoldM.
  repeat branch; intros H; inversion H; subst; clear H.
  repeat match goal with
         | E : (_, _) = (_, _) |- _ => inversion E; subst; clear E
         end.
  now apply or_truthy.
Qed.

Lemma fetchSpotifyPlaylist_named (w : World) (playlistId : string)
    (h h' : History) (data : PlaylistData) :
  fetchSpotifyPlaylist w playlistId h = (Ok (Some data), h') ->
  JS.truthy (name data) = true.
Proof.
  rewrite fetchSpotifyPlaylist_chain.
  destruct (spotifyDownStrategy w playlistId h) as [[[d1|]|] h1] eqn:E1;
    cbn [fst].
  - intros [= <- _]. now apply spotifyDownStrategy_named in E1.
  - destruct (spotifyScraperStrategy w playlistId _) as [[[d2|]|] h2] eqn:E2;
      cbn [fst].
    + intros [= <- _]. now apply spotifyScraperStrategy_named in E2.
    + destruct (spotifyEmbedStrategy w playlistId _) as [r3 h3] eqn:E3.
      cbn [fst]. intros [= -> _]. now apply spotifyEmbedStrategy_named in E3.
    + destruct (spotifyEmbedStrategy w playlistId _) as [r3 h3] eqn:E3.
      cbn [fst]. intros [= -> _]. now apply spotifyEmbedStrategy_named in E3.
  - destruct (spotifyScraperStrategy w playlistId _) as [[[d2|]|] h2] eqn:E2;
      cbn [fst].
    + intros [= <- _]. now apply spotifyScraperStrategy_named in E2.
    + destruct (spotifyEmbedStrategy w playlistId _) as [r3 h3] eqn:E3.
      cbn [fst]. intros [= -> _]. now apply spotifyEmbedStrategy_named in E3.
    + destruct (spotifyEmbedStrategy w playlistId _) as [r3 h3] eqn:E3.
      cbn [fst]. intros [= -> _]. now apply spotifyEmbedStrategy_named in E3.
Qed.

Lemma fetchAppleMusicPlaylist_named (w : World) (storefront_ playlistId : string)
    (h h' : History) (data : PlaylistData) :
  fetchAppleMusicPlaylist w storefront_ playlistId h = (Ok (Some data), h') ->
  JS.truthy (name data) = true.
Proof.
  unfold fetchAppleMusicPlaylist. unfoldM.
  repeat branch; intros H; inversion H; subst; clear H.
  repeat match goal with
         | E : (_, _) = (_, _) |- _ => inversion E; subst; clear E
         end.
  now apply or_truthy.
Qed.

Lemma fetchFromInstances_named (w : World) (playlistId : string)
    (instances : list string) :
  forall h h' data,
    fetchFromInstances w instances playlistId h = (Ok (Some data), h') ->
    JS.truthy (name data) = true.
Proof.
  induction instances as [|instance rest IH]; intros h h' data; simpl.
  - unfold ret. discriminate.
  - unfold bind.
    destruct (fetchFromInstance w instance playlistId h) as [r h1] eqn:E.
    destruct r as [[data1|]|]; cbv beta iota.
    + unfold ret. intros [= <- _].
      revert E. unfold fetchFromInstance. unfoldM.
      repeat branch; intros H; inversion H; subst; clear H.
      repeat match goal with
             | E : (_, _) = (_, _) |- _ => inversion E; subst; clear E
             end.
      now apply or_truthy.
    + apply IH.
    + discriminate.
Qed.

(** X10.  What the fetch step hands to the matching stage: a playlist with
    a name (each fetcher has a default name) and the identifier that the
    parser of the detected platform found in the URL. *)
Theorem fetchByPlatform_hands_over
    (w : World) (platform_ : ImportPlatform) (url_ : string) (h h' : History)
    (id_ : string) (data : PlaylistData) :
  fetchByPlatform w platform_ url_ h = (Ok (inr (id_, Some data)), h') ->
  JS.truthy (name data) = true /\
  match platform_ with
  | spotify => parseSpotifyUrl url_ = Some id_
  | apple => exists ref, parseAppleMusicUrl url_ = Some ref /\ id_ = id ref
  | youtube => parseYouTubeMusicUrl url_ = Some id_
  | unknown => False
  end.
Proof.
  unfold fetchByPlatform. destruct platform_.
  - destruct (parseSpotifyUrl url_) as [i|]; [|unfold ret; discriminate].
    unfold bind, ret.
    destruct (fetchSpotifyPlaylist w i h) as [[r|] h1] eqn:E; [|discriminate].
    intros [= -> -> ->]. split; [|reflexivity].
    now apply fetchSpotifyPlaylist_named in E.
  - destruct (parseAppleMusicUrl url_) as [ref|]; [|unfold ret; discriminate].
    unfold bind, ret.
    destruct (fetchAppleMusicPlaylist w (storefront ref) (id ref) h)
      as [[r|] h1] eqn:E; [|discriminate].
    intros [= <- -> ->]. split; [|now exists ref].
    now apply fetchAppleMusicPlaylist_named in E.
  - destruct (parseYouTubeMusicUrl url_) as [i|]; [|unfold ret; discriminate].
    unfold bind, ret, fetchYouTubeMusicPlaylist.
    destruct (fetchFromInstances w INVIDIOUS_INSTANCES i h) as [[r|] h1] eqn:E;
      [|discriminate].
    intros [= -> -> ->]. split; [|reflexivity].
    now apply fetchFromInstances_named in E.
  - unfold ret. discriminate.
Qed.

Lemma fetchByPlatform_hands_over_witness :
  JS.truthy (VStr "Road mix") = true /\
  parseYouTubeMusicUrl Sample.youtubeUrl = Some "PLxyz"%string.
Proof.
  exact (fetchByPlatform_hands_over Sample.oneVideoQobuz youtube
           Sample.youtubeUrl []
           [EvFetch (invidiousRequest "https://invidious.io.lol" "PLxyz")]
           "PLxyz"
           {| name := VStr "Road mix"; tracks := [Sample.songA] |}
           eq_refl).
Defined.

(* ====================================================================== *)
(** ** What a match looks like *)
(* ====================================================================== *)



(* ====================================================================== *)
(** ** The trace of the matching loop *)
(* ====================================================================== *)

Lemma sleepsOf_app (a b : list Event) :
  sleepsOf (a ++ b) = sleepsOf a ++ sleepsOf b.
Proof. apply flat_map_app. Qed.

Lemma qobuzQueries_app (a b : list Event) :
  qobuzQueries (a ++ b) = qobuzQueries a ++ qobuzQueries b.
Proof. apply flat_map_app. Qed.

Lemma tidalQueries_app (a b : list Event) :
  tidalQueries (a ++ b) = tidalQueries a ++ tidalQueries b.
Proof. apply flat_map_app. Qed.

Lemma stagesOf_app (a b : list Event) :
  stagesOf (a ++ b) = stagesOf a ++ stagesOf b.
Proof. unfold stagesOf, progressEvents. now rewrite flat_map_app, map_app. Qed.

Lemma fetch_events_quiet (evs : list Event) :
  Forall (fun e => isFetch e = true) evs ->
  sleepsOf evs = [] /\ qobuzQueries evs = [] /\ tidalQueries evs = [] /\
  stagesOf evs = [] /\ Forall (fun e => isMatching e = false) evs.
Proof.
  induction 1 as [|e evs He _ (H1 & H2 & H3 & H4 & H5)].
  - repeat split; constructor.
  - destruct e; try discriminate. repeat split; auto.
Qed.

Lemma pausesFrom_whole (n : nat) :
  forall k : nat,
    pausesFrom (Z.of_nat (k + n)) (Z.of_nat k) n = repeat 200%Z (n - 1).
Proof.
  induction n as [|n IH]; intros k; [reflexivity|].
  cbn [pausesFrom].
  replace (Z.of_nat k + 1)%Z with (Z.of_nat (S k)) by lia.
  replace (k + S n)%nat with (S k + n)%nat by lia.
  rewrite IH.
  destruct n as [|n].
  - replace (Z.of_nat k <? Z.of_nat (S k + 0) - 1)%Z with false; [reflexivity|].
    symmetry. apply Z.ltb_ge. lia.
  - replace (Z.of_nat k <? Z.of_nat (S k + S n) - 1)%Z with true.
    + simpl. now rewrite Nat.sub_0_r.
    + symmetry. apply Z.ltb_lt. lia.
Qed.

(** One call of the matcher, as the loop sees it. *)
Lemma matchTrack_trace (w : World) (track : ImportedTrack) (h : History) :
  exists r evs,
    matchTrack w track h = (Ok r, h ++ evs) /\
    Forall (fun e => isSearch e = true) evs /\
    qobuzQueries evs = [trackQuery track] /\
    (forall m, r = Some m -> provenance m = keyOf track /\ scoredBySource m) /\
    ((exists c, answers (searchQobuzOnly w h (trackQuery track)) c) ->
     tidalQueries evs = [] /\
     exists m, r = Some m /\
               PlaylistTrack.source m = PlaylistTrack.qobuz /\
               PlaylistTrack.matchConfidence m = 90%Z).
Proof.
  unfold matchTrack. unfoldM.
  assert (Hans : forall results c,
            answers (Ok results) c -> firstTrack results = Some c).
  { intros results c [l E]. inversion E; subst. reflexivity. }
  destruct (searchQobuzOnly w h (trackQuery track)) as [qres|] eqn:Eq.
  - destruct (firstTrack qres) as [c|] eqn:Fq; cbv beta iota.
    + do 2 eexists. split; [reflexivity|].
      split; [now repeat constructor|]. split; [reflexivity|].
      split.
      * intros m [= <-]. split; [reflexivity | now left].
      * intros _. split; [reflexivity|]. eexists. now repeat split.
    + destruct (searchTidalOnly w _ _) as [tres|];
        [destruct (firstTrack tres) as [c|]|]; cbv beta iota;
        rewrite <- app_assoc; cbn [app];
        do 2 eexists; (split; [reflexivity|]);
        (split; [now repeat constructor|]); (split; [reflexivity|]);
        (split; [(intros m [= <-]; split; [reflexivity | now right])
                     || discriminate|]);
        intros [c' Hc]; apply Hans in Hc; rewrite Hc in Fq; discriminate.
  - cbv beta iota.
    destruct (searchTidalOnly w _ _) as [tres|];
      [destruct (firstTrack tres) as [c|]|]; cbv beta iota;
      rewrite <- app_assoc; cbn [app];
      do 2 eexists; (split; [reflexivity|]);
      (split; [now repeat constructor|]); (split; [reflexivity|]);
      (split; [(intros m [= <-]; split; [reflexivity | now right])
                   || discriminate|]);
      intros [c' [l Hc]]; discriminate.
Qed.

Lemma search_events_quiet (evs : list Event) :
  Forall (fun e => isSearch e = true) evs ->
  sleepsOf evs = [] /\ stagesOf evs = [].
Proof.
  induction 1 as [|e evs He _ (H1 & H2)]; [now split|].
  destruct e; try discriminate; now split.
Qed.

Lemma matchLoop_trace (w : World) (onProgress : bool) (len : Z)
    (rest : list ImportedTrack) :
  forall i matched0 unmatched0 h,
  exists matched unmatched evs,
    matchLoop w onProgress len i rest matched0 unmatched0 h
    = (Ok (matched0 ++ matched, unmatched0 ++ unmatched), h ++ evs) /\
    loopTrace w onProgress len i rest matched unmatched evs.
Proof.
  induction rest as [|track rest IH]; intros i matched0 unmatched0 h.
  - exists [], [], []. cbn [matchLoop]. unfold ret. rewrite !app_nil_r.
    split; [reflexivity|]. unfold loopTrace. cbn [List.length].
    split; [now exists []|].
    repeat split; try constructor. now destruct onProgress.
  - cbn [matchLoop]. unfold bind at 1 2.
    rewrite report_run.
    set (pre := if onProgress then _ else []).
    assert (Hpre : sleepsOf pre = [] /\ qobuzQueries pre = [] /\
                   tidalQueries pre = [] /\
                   stagesOf pre
                   = (if onProgress then [Progress.matching] else []) /\
                   Forall (fun e => isMatching e = true) pre).
    { unfold pre. destruct onProgress; repeat split; repeat constructor. }
    destruct Hpre as (Hp1 & Hp2 & Hp3 & Hp4 & Hp5). clearbody pre.
    destruct (matchTrack_trace w track (h ++ pre))
      as (r & evs1 & Hrun & Hs & Hq & Hprov & Hall).
    rewrite Hrun.
    destruct (search_events_quiet evs1 Hs) as (Hs1 & Hs2).
    set (pause := if (i <? len - 1)%Z then [EvSleep 200] else []).
    assert (Hpause : forall h0,
              (if (i <? len - 1)%Z then sleep 200 else ret tt) h0
              = (Ok tt, h0 ++ pause)).
    { intros h0. unfold pause, sleep, call, ret.
      destruct (i <? len - 1)%Z; [reflexivity | now rewrite app_nil_r]. }
    assert (Hz : sleepsOf pause = (if (i <? len - 1)%Z then [200%Z] else []) /\
                 qobuzQueries pause = [] /\ tidalQueries pause = [] /\
                 stagesOf pause = [] /\
                 Forall (fun e => isMatching e = true) pause).
    { unfold pause. destruct (i <? len - 1)%Z; repeat split; repeat constructor. }
    destruct Hz as (Hz1 & Hz2 & Hz3 & Hz4 & Hz5). clearbody pause.
    assert (Htrace : forall evs,
              sleepsOf ((pre ++ evs1 ++ pause) ++ evs)
              = (if (i <? len - 1)%Z then [200%Z] else []) ++ sleepsOf evs /\
              qobuzQueries ((pre ++ evs1 ++ pause) ++ evs)
              = trackQuery track :: qobuzQueries evs /\
              stagesOf ((pre ++ evs1 ++ pause) ++ evs)
              = (if onProgress then [Progress.matching] else [])
                ++ stagesOf evs /\
              (Forall (fun e => isMatching e = true) evs ->
               Forall (fun e => isMatching e = true)
                 ((pre ++ evs1 ++ pause) ++ evs))).
    { intros evs.
      rewrite !sleepsOf_app, !qobuzQueries_app, !stagesOf_app.
      rewrite Hp1, Hp2, Hp4, Hs1, Hs2, Hq, Hz1, Hz2, Hz4.
      rewrite !app_nil_r. cbn [app].
      repeat split.
      intros He. repeat (apply Forall_app; split); auto.
      now apply search_isMatching. }
    destruct r as [m|]; unfold bind; rewrite Hpause.
    + destruct (IH (i + 1)%Z (matched0 ++ [m]) unmatched0
                  (((h ++ pre) ++ evs1) ++ pause))
        as (matched & unmatched & evs & -> & Hflags & Hsc & Hqs & Hsl & Hst
            & Hev & Hq90).
      exists (m :: matched), unmatched, ((pre ++ evs1 ++ pause) ++ evs).
      rewrite <- !app_assoc. cbn [app].
      split; [reflexivity|].
      destruct (Htrace evs) as (T1 & T2 & T3 & T4).
      destruct (Hprov m eq_refl) as (Hpm & Hsm).
      unfold loopTrace. cbn [List.length pausesFrom map repeat].
      rewrite <- !app_assoc in T1, T2, T3, T4. cbn [app] in T1, T2, T3, T4.
      rewrite T1, T2, T3, Hqs, Hsl, Hst.
      split; [|split; [|split; [|split; [|split; [|split]]]]].
      * destruct Hflags as (flags & Hl & Hu & Hm).
        exists (true :: flags). cbn [select List.length Bool.eqb map].
        split; [now rewrite Hl|]. split; [exact Hu|].
        now rewrite Hpm, Hm.
      * now constructor.
      * reflexivity.
      * reflexivity.
      * now destruct onProgress.
      * now apply T4.
      * intros Hw. destruct (Hq90 Hw) as (Hl & Hu & Hf & Ht).
        destruct (Hall (Hw _ _)) as (Ht1 & m' & [= <-] & Hsrc & Hconf).
        rewrite !tidalQueries_app, Hp3, Ht1, Hz3, Ht in *.
        cbn [List.length]. repeat split; auto.
    + destruct (IH (i + 1)%Z matched0 (unmatched0 ++ [track])
                  (((h ++ pre) ++ evs1) ++ pause))
        as (matched & unmatched & evs & -> & Hflags & Hsc & Hqs & Hsl & Hst
            & Hev & Hq90).
      exists matched, (track :: unmatched), ((pre ++ evs1 ++ pause) ++ evs).
      rewrite <- !app_assoc. cbn [app].
      split; [reflexivity|].
      destruct (Htrace evs) as (T1 & T2 & T3 & T4).
      unfold loopTrace. cbn [List.length pausesFrom map repeat].
      rewrite <- !app_assoc in T1, T2, T3, T4. cbn [app] in T1, T2, T3, T4.
      rewrite T1, T2, T3, Hqs, Hsl, Hst.
      split; [|split; [|split; [|split; [|split; [|split]]]]].
      * destruct Hflags as (flags & Hl & Hu & Hm).
        exists (false :: flags). cbn [select List.length Bool.eqb map].
        split; [now rewrite Hl|]. split; [now rewrite Hu | exact Hm].
      * exact Hsc.
      * reflexivity.
      * reflexivity.
      * now destruct onProgress.
      * now apply T4.
      * intros Hw.
        destruct (Hall (Hw _ _)) as (_ & m' & Hm' & _). discriminate.
Qed.

(* ====================================================================== *)
(** ** The run of an import, step by step *)
(* ====================================================================== *)

(** Matching and saving, written out: the loop, then either the failure or
    the two calls of the store. *)
Lemma matchAndSave_unfold (w : World) (onProgress : bool)
    (platform_ : ImportPlatform) (id_ : string) (data : PlaylistData)
    (h : History) :
  let total_ := Z.of_nat (List.length (tracks data)) in
  exists matched unmatched evsL,
    loopTrace w onProgress total_ 0 (tracks data) matched unmatched evsL /\
    matchAndSave w onProgress platform_ id_ data h =
    let hL := h ++ announce onProgress (matchingOpens total_) ++ evsL in
    match matched with
    | [] =>
        (Ok (failed total_ unmatched
               "Could not match any tracks. Try a different playlist."),
         hL)
    | _ :: _ =>
        let hS := hL ++ announce onProgress savingOpens in
        match createPlaylist w hS (name data) with
        | Throw => (Throw, hS ++ [EvCreatePlaylist (name data)])
        | Ok newPlaylist =>
            let updated :=
              updatedPlaylistOf newPlaylist matched platform_ id_ data in
            match updatePlaylist w (hS ++ [EvCreatePlaylist (name data)])
                    updated with
            | Throw =>
                (Throw,
                 hS ++ [EvCreatePlaylist (name data); EvUpdatePlaylist updated])
            | Ok _ =>
                (Ok {| success := true;
                       playlist := Some updated;
                       totalTracks := total_;
                       matchedTracks := Z.of_nat (List.length matched);
                       unmatchedTracks := unmatched;
                       error := None |},
                 hS ++ [EvCreatePlaylist (name data); EvUpdatePlaylist updated]
                    ++ announce onProgress
                         (importDone (Z.of_nat (List.length matched)) total_))
            end
        end
    end.
Proof.
  cbv zeta. unfold matchAndSave. unfold bind at 1 2. rewrite report_run.
  fold (matchingOpens (Z.of_nat (List.length (tracks data)))).
  fold (announce onProgress
          (matchingOpens (Z.of_nat (List.length (tracks data))))).
  destruct (matchLoop_trace w onProgress (Z.of_nat (List.length (tracks data)))
              (tracks data) 0 [] []
              (h ++ announce onProgress
                      (matchingOpens (Z.of_nat (List.length (tracks data))))))
    as (matched & unmatched & evsL & -> & Htrace).
  exists matched, unmatched, evsL. split; [exact Htrace|].
  cbn [app]. cbv beta iota. rewrite <- !app_assoc.
  destruct matched as [|first others_]; [reflexivity|].
  unfold bind. rewrite report_run. unfold call.
  fold savingOpens. fold (announce onProgress savingOpens).
  rewrite <- !app_assoc.
  destruct (createPlaylist w _ (name data)) as [newPlaylist|]; [|reflexivity].
  cbv beta iota. rewrite <- !app_assoc. cbn [app].
  fold (updatedPlaylistOf newPlaylist (first :: others_) platform_ id_ data).
  destruct (updatePlaylist w _ _) as [[]|]; [|reflexivity].
  rewrite report_run. unfold ret. rewrite <- !app_assoc. reflexivity.
Qed.

(** A run that reaches the matching stage is the fetch step, which only
    fetches, followed by matching and saving. *)
Lemma importPlaylist_matching (w : World) (url_ : string) (onProgress : bool)
    (h h1 : History) (id_ : string) (data : PlaylistData) :
  detectPlatform url_ <> unknown ->
  fetchByPlatform w (detectPlatform url_) url_
    (atFetch onProgress (detectPlatform url_) h)
  = (Ok (inr (id_, Some data)), h1) ->
  tracks data <> [] ->
  importPlaylist w url_ onProgress h
  = matchAndSave w onProgress (detectPlatform url_) id_ data h1 /\
  exists evsF,
    h1 = h ++ announce onProgress
               {| Progress.stage := Progress.fetching;
                  Progress.current := 0;
                  Progress.total := 0;
                  Progress.message :=
                    ("Fetching playlist from "
                     ++ platformName (detectPlatform url_) ++ "...")%string |}
           ++ evsF /\
    Forall (fun e => isFetch e = true) evsF.
Proof.
  intros Hknown Hfetch Hdata.
  rewrite importPlaylist_known by exact Hknown.
  destruct (fetchByPlatform_run w (detectPlatform url_) url_
              (atFetch onProgress (detectPlatform url_) h))
    as (fetched & evsF & Hf & HevF).
  rewrite Hfetch in Hf. inversion Hf; subst; clear Hf.
  rewrite Hfetch.
  destruct (tracks data) as [|t ts] eqn:Ht; [contradiction|].
  split; [reflexivity|].
  exists evsF. split; [|exact HevF].
  unfold atFetch, announce, fetchingEvent. now rewrite <- app_assoc.
Qed.

(** The three ways of a run: an unknown platform, a failure of the fetch
    step, or matching and saving after a fetch that gave tracks. *)
Lemma importPlaylist_ways (w : World) (url_ : string) (onProgress : bool)
    (h : History) :
  (detectPlatform url_ = unknown /\
   importPlaylist w url_ onProgress h
   = (Ok (earlyFailure
            "Unsupported URL. Please use a Spotify, Apple Music, or YouTube Music playlist link."),
      h)) \/
  (detectPlatform url_ <> unknown /\
   exists evsF,
     Forall (fun e => isFetch e = true) evsF /\
     ((exists msg,
         In msg earlyErrors /\
         importPlaylist w url_ onProgress h
         = (Ok (earlyFailure msg),
            atFetch onProgress (detectPlatform url_) h ++ evsF))
      \/
      (exists id_ data,
         fetchByPlatform w (detectPlatform url_) url_
           (atFetch onProgress (detectPlatform url_) h)
         = (Ok (inr (id_, Some data)),
            atFetch onProgress (detectPlatform url_) h ++ evsF) /\
         tracks data <> [] /\
         importPlaylist w url_ onProgress h
         = matchAndSave w onProgress (detectPlatform url_) id_ data
             (atFetch onProgress (detectPlatform url_) h ++ evsF)))).
Proof.
  destruct (ImportPlatform_eq_dec (detectPlatform url_) unknown) as [Hp|Hp].
  { left. split; [exact Hp|]. unfold importPlaylist. now rewrite Hp. }
  right. split; [exact Hp|].
  rewrite importPlaylist_known by exact Hp.
  destruct (fetchByPlatform_run w (detectPlatform url_) url_
              (atFetch onProgress (detectPlatform url_) h))
    as (fetched & evsF & Hf & HevF).
  pose proof (fetchByPlatform_early w (detectPlatform url_) url_
                (atFetch onProgress (detectPlatform url_) h)) as Hearly.
  rewrite Hf in *.
  exists evsF. split; [exact HevF|].
  destruct fetched as [early|[id_ [data|]]].
  - destruct (Hearly _ _ eq_refl) as (_ & msg & -> & Hmsg).
    left. exists msg. split; [exact Hmsg | reflexivity].
  - destruct (tracks data) as [|t ts] eqn:Ht.
    + left. eexists. split; [|reflexivity]. unfold earlyErrors. simpl. tauto.
    + right. exists id_, data. rewrite Ht.
      split; [reflexivity|]. split; [discriminate | reflexivity].
  - left. eexists. split; [|reflexivity]. unfold earlyErrors. simpl. tauto.
Qed.

(* ====================================================================== *)
(** ** Failures before the matching stage *)
(* ====================================================================== *)

(** X12.  A URL of a recognised platform in which the parser of that
    platform finds no identifier is refused with the message of the
    platform, before any request: all that has happened is the opening of
    the fetch stage. *)
Theorem importPlaylist_invalid_url
    (w : World) (url_ : string) (onProgress : bool) (h : History) :
  (detectPlatform url_ = spotify -> parseSpotifyUrl url_ = None ->
   importPlaylist w url_ onProgress h
   = (Ok {| success := false; playlist := None; totalTracks := 0;
            matchedTracks := 0; unmatchedTracks := [];
            error := Some "Invalid Spotify playlist URL"%string |},
      h ++ announce onProgress
             {| Progress.stage := Progress.fetching;
                Progress.current := 0; Progress.total := 0;
                Progress.message := "Fetching playlist from spotify..." |})) /\
  (detectPlatform url_ = apple -> parseAppleMusicUrl url_ = None ->
   importPlaylist w url_ onProgress h
   = (Ok {| success := false; playlist := None; totalTracks := 0;
            matchedTracks := 0; unmatchedTracks := [];
            error := Some "Invalid Apple Music playlist URL"%string |},
      h ++ announce onProgress
             {| Progress.stage := Progress.fetching;
                Progress.current := 0; Progress.total := 0;
                Progress.message := "Fetching playlist from apple..." |})) /\
  (detectPlatform url_ = youtube -> parseYouTubeMusicUrl url_ = None ->
   importPlaylist w url_ onProgress h
   = (Ok {| success := false; playlist := None; totalTracks := 0;
            matchedTracks := 0; unmatchedTracks := [];
            error := Some "Invalid YouTube Music playlist URL"%string |},
      h ++ announce onProgress
             {| Progress.stage := Progress.fetching;
                Progress.current := 0; Progress.total := 0;
                Progress.message := "Fetching playlist from youtube..." |})).
Proof.
  repeat split; intros Hd Hp;
    (rewrite importPlaylist_known by (rewrite Hd; discriminate));
    rewrite Hd; unfold fetchByPlatform; rewrite Hp; reflexivity.
Qed.

Lemma importPlaylist_invalid_url_witness :
  importPlaylist Sample.oneVideoQobuz "https://www.youtube.com/playlist/abc"
    true []
  = (Ok {| success := false; playlist := None; totalTracks := 0;
           matchedTracks := 0; unmatchedTracks := [];
           error := Some "Invalid YouTube Music playlist URL"%string |},
     [fetchingEvent youtube]).
Proof.
  exact (proj2 (proj2 (importPlaylist_invalid_url Sample.oneVideoQobuz
                         "https://www.youtube.com/playlist/abc" true []))
           eq_refl eq_refl).
Defined.

(** X13.  When the fetcher returns no result or a playlist without tracks,
    the import fails with the message that the playlist could not be
    fetched and with all counts zero; nothing but the fetch stage has
    happened: no search, no pause, no call of the store. *)
Theorem importPlaylist_fetch_failed
    (w : World) (url_ : string) (onProgress : bool) (h h1 : History)
    (id_ : string) (fetched : option PlaylistData) :
  detectPlatform url_ <> unknown ->
  fetchByPlatform w (detectPlatform url_) url_
    (atFetch onProgress (detectPlatform url_) h)
  = (Ok (inr (id_, fetched)), h1) ->
  (fetched = None \/ exists data, fetched = Some data /\ tracks data = []) ->
  importPlaylist w url_ onProgress h
  = (Ok {| success := false; playlist := None; totalTracks := 0;
           matchedTracks := 0; unmatchedTracks := [];
           error := Some "Could not fetch playlist. Make sure it's a public playlist."%string |},
     h1) /\
  exists evsF,
    h1 = atFetch onProgress (detectPlatform url_) h ++ evsF /\
    Forall (fun e => isFetch e = true) evsF /\
    qobuzQueries evsF = [] /\ tidalQueries evsF = [] /\
    sleepsOf evsF = [] /\ storeCalls evsF = [].
Proof.
  intros Hknown Hfetch Hnone.
  rewrite importPlaylist_known by exact Hknown.
  destruct (fetchByPlatform_run w (detectPlatform url_) url_
              (atFetch onProgress (detectPlatform url_) h))
    as (fetched' & evsF & Hf & HevF).
  rewrite Hfetch in Hf. inversion Hf; subst; clear Hf.
  rewrite Hfetch.
  split.
  - destruct Hnone as [-> | (data & -> & Ht)]; [reflexivity|].
    now rewrite Ht.
  - exists evsF. split; [reflexivity|]. split; [exact HevF|].
    destruct (fetch_events_quiet evsF HevF) as (H1 & H2 & H3 & _).
    repeat split; auto.
    clear - HevF. induction HevF as [|e evs He _ IH]; [reflexivity|].
    destruct e; try discriminate; exact IH.
Qed.

Lemma importPlaylist_fetch_failed_witness :
  fst (importPlaylist Sample.offline Sample.youtubeUrl true [])
  = Ok {| success := false; playlist := None; totalTracks := 0;
          matchedTracks := 0; unmatchedTracks := [];
          error := Some "Could not fetch playlist. Make sure it's a public playlist."%string |}.
Proof.
  destruct (importPlaylist_fetch_failed Sample.offline Sample.youtubeUrl true []
              (snd (importPlaylist Sample.offline Sample.youtubeUrl true []))
              "PLxyz" None)
    as (Hrun & _).
  - vm_compute. discriminate.
  - vm_compute. reflexivity.
  - now left.
  - now rewrite Hrun.
Defined.

(* ====================================================================== *)
(** ** Raising, stages, pauses and lookups *)
(* ====================================================================== *)



Lemma announce_quiet (onProgress : bool) (p : Progress.ImportProgress) :
  sleepsOf (announce onProgress p) = [] /\
  qobuzQueries (announce onProgress p) = [] /\
  tidalQueries (announce onProgress p) = [] /\
  storeCalls (announce onProgress p) = [] /\
  stagesOf (announce onProgress p)
  = (if onProgress then [Progress.stage p] else []).
Proof. destruct onProgress; now repeat split. Qed.

Lemma storeCalls_app (a b : list Event) :
  storeCalls (a ++ b) = storeCalls a ++ storeCalls b.
Proof. apply filter_app. Qed.

Lemma matching_no_store (evs : list Event) :
  Forall (fun e => isMatching e = true) evs -> storeCalls evs = [].
Proof.
  induction 1 as [|e evs He _ IH]; [reflexivity|].
  destruct e; try discriminate; exact IH.
Qed.

Lemma fetch_no_store (evs : list Event) :
  Forall (fun e => isFetch e = true) evs -> storeCalls evs = [].
Proof.
  induction 1 as [|e evs He _ IH]; [reflexivity|].
  destruct e; try discriminate; exact IH.
Qed.

Lemma not_in_repeat_matching (s : Progress.Stage) (k : nat) :
  s <> Progress.matching -> ~ In s (repeat Progress.matching k).
Proof. intros Hs Hin. apply repeat_spec in Hin. contradiction. Qed.



Lemma save_events_quiet (evs : list Event) :
  Forall (fun e => isSave e = true) evs ->
  sleepsOf evs = [] /\ qobuzQueries evs = [] /\ tidalQueries evs = [].
Proof.
  induction 1 as [|e evs He _ (H1 & H2 & H3)]; [now repeat split|].
  destruct e; try discriminate; now repeat split.
Qed.

(** Matching and saving in parts: the opening of the stage, the events of
    the loop, and the events of the save stage. *)
Lemma matchAndSave_parts (w : World) (onProgress : bool)
    (platform_ : ImportPlatform) (id_ : string) (data : PlaylistData)
    (h : History) :
  let total_ := Z.of_nat (List.length (tracks data)) in
  let run := matchAndSave w onProgress platform_ id_ data h in
  exists matched unmatched evsL tail,
    loopTrace w onProgress total_ 0 (tracks data) matched unmatched evsL /\
    Forall (fun e => isSave e = true) tail /\
    snd run
    = h ++ announce onProgress (matchingOpens total_) ++ evsL ++ tail /\
    (matched = [] ->
     tail = [] /\
     fst run = Ok (failed total_ unmatched
                     "Could not match any tracks. Try a different playlist.")) /\
    (matched <> [] ->
     (fst run = Throw /\
      ((exists hC name_, createPlaylist w hC name_ = Throw) \/
       (exists hC pl, updatePlaylist w hC pl = Throw))) \/
     exists newPlaylist hC,
       createPlaylist w hC (name data) = Ok newPlaylist /\
       storeCalls tail
       = [ EvCreatePlaylist (name data);
           EvUpdatePlaylist
             (updatedPlaylistOf newPlaylist matched platform_ id_ data) ] /\
       (onProgress = true ->
        In (EvProgress
              (importDone (Z.of_nat (List.length matched)) total_)) tail) /\
       fst run
       = Ok {| success := true;
               playlist :=
                 Some (updatedPlaylistOf newPlaylist matched platform_ id_ data);
               totalTracks := total_;
               matchedTracks := Z.of_nat (List.length matched);
               unmatchedTracks := unmatched;
               error := None |}).
Proof.
  cbv zeta.
  destruct (matchAndSave_unfold w onProgress platform_ id_ data h)
    as (matched & unmatched & evsL & Htrace & ->).
  cbv zeta.
  exists matched, unmatched, evsL.
  destruct matched as [|first others_].
  - exists []. cbn [fst snd]. rewrite !app_nil_r.
    split; [exact Htrace|]. split; [constructor|].
    split; [reflexivity|]. split; [now split | intros []; reflexivity].
  - destruct (createPlaylist w _ (name data)) as [newPlaylist|] eqn:Ec.
    + destruct (updatePlaylist w _ _) as [[]|] eqn:Eu.
      * eexists. cbn [fst snd].
        split; [exact Htrace|]. split; [|split; [|split]].
        2: { rewrite <- !app_assoc. reflexivity. }
        -- apply Forall_app; split;
             [destruct onProgress; now repeat constructor|].
           apply Forall_app; split; [now repeat constructor|].
           destruct onProgress; now repeat constructor.
        -- discriminate.
        -- intros _. right. do 2 eexists. split; [exact Ec|].
           split; [|split; [|reflexivity]].
           ++ rewrite !storeCalls_app.
              destruct (announce_quiet onProgress savingOpens)
                as (_ & _ & _ & -> & _).
              match goal with
              | |- context [announce onProgress ?p] =>
                  destruct (announce_quiet onProgress p) as (_ & _ & _ & -> & _)
              end.
              reflexivity.
           ++ intros ->. rewrite !in_app_iff. right. right. now left.
      * eexists. cbn [fst snd].
        split; [exact Htrace|]. split; [|split; [|split]].
        2: { rewrite <- !app_assoc. reflexivity. }
        -- apply Forall_app; split;
             [destruct onProgress; now repeat constructor
             | now repeat constructor].
        -- discriminate.
        -- intros _. left. split; [reflexivity|]. right. eauto.
    + eexists. cbn [fst snd].
      split; [exact Htrace|]. split; [|split; [|split]].
      2: { rewrite <- !app_assoc. reflexivity. }
      * apply Forall_app; split;
          [destruct onProgress; now repeat constructor
          | now repeat constructor].
      * discriminate.
      * intros _. left. split; [reflexivity|]. left. eauto.
Qed.

(** A run that reaches the matching stage, in parts. *)
Lemma importPlaylist_parts (w : World) (url_ : string) (onProgress : bool)
    (h h1 : History) (id_ : string) (data : PlaylistData) :
  detectPlatform url_ <> unknown ->
  fetchByPlatform w (detectPlatform url_) url_
    (atFetch onProgress (detectPlatform url_) h)
  = (Ok (inr (id_, Some data)), h1) ->
  tracks data <> [] ->
  let total_ := Z.of_nat (List.length (tracks data)) in
  let run := importPlaylist w url_ onProgress h in
  exists matched unmatched evsF evsL tail,
    Forall (fun e => isFetch e = true) evsF /\
    loopTrace w onProgress total_ 0 (tracks data) matched unmatched evsL /\
    Forall (fun e => isSave e = true) tail /\
    snd run
    = h ++ (if onProgress then [fetchingEvent (detectPlatform url_)] else [])
        ++ evsF ++ announce onProgress (matchingOpens total_) ++ evsL ++ tail /\
    (matched = [] ->
     tail = [] /\
     fst run = Ok (failed total_ unmatched
                     "Could not match any tracks. Try a different playlist.")) /\
    (matched <> [] ->
     (fst run = Throw /\
      ((exists hC name_, createPlaylist w hC name_ = Throw) \/
       (exists hC pl, updatePlaylist w hC pl = Throw))) \/
     exists newPlaylist hC,
       createPlaylist w hC (name data) = Ok newPlaylist /\
       storeCalls tail
       = [ EvCreatePlaylist (name data);
           EvUpdatePlaylist
             (updatedPlaylistOf newPlaylist matched (detectPlatform url_)
                id_ data) ] /\
       (onProgress = true ->
        In (EvProgress
              (importDone (Z.of_nat (List.length matched)) total_)) tail) /\
       fst run
       = Ok {| success := true;
               playlist :=
                 Some (updatedPlaylistOf newPlaylist matched
                         (detectPlatform url_) id_ data);
               totalTracks := total_;
               matchedTracks := Z.of_nat (List.length matched);
               unmatchedTracks := unmatched;
               error := None |}).
Proof.
  intros Hknown Hfetch Hdata. cbv zeta.
  destruct (importPlaylist_matching w url_ onProgress h h1 id_ data
              Hknown Hfetch Hdata)
    as (-> & evsF & -> & HevF).
  destruct (matchAndSave_parts w onProgress (detectPlatform url_) id_ data
              (h ++ announce onProgress
                      {| Progress.stage := Progress.fetching;
                         Progress.current := 0;
                         Progress.total := 0;
                         Progress.message :=
                           ("Fetching playlist from "
                            ++ platformName (detectPlatform url_) ++ "...")%string |}
                 ++ evsF))
    as (matched & unmatched & evsL & tail & Htrace & Htail & Hsnd & Hnil & Hcons).
  exists matched, unmatched, evsF, evsL, tail.
  split; [exact HevF|]. split; [exact Htrace|]. split; [exact Htail|].
  split; [|split; [exact Hnil | exact Hcons]].
  cbv zeta in Hsnd. rewrite Hsnd. unfold announce, fetchingEvent.
  now rewrite <- !app_assoc.
Qed.





(* ====================================================================== *)
(** ** What the result says about the tracks *)
(* ====================================================================== *)





(** The identifier that the fetch step hands over is the one that the
    parser of the platform found. *)
Lemma fetchByPlatform_id (w : World) (platform_ : ImportPlatform)
    (url_ : string) (h h' : History) (id_ : string)
    (fetched : option PlaylistData) :
  platform_ <> unknown ->
  fetchByPlatform w platform_ url_ h = (Ok (inr (id_, fetched)), h') ->
  match platform_ with
  | spotify => parseSpotifyUrl url_ = Some id_
  | apple => exists ref, parseAppleMusicUrl url_ = Some ref /\ id_ = id ref
  | youtube => parseYouTubeMusicUrl url_ = Some id_
  | unknown => False
  end.
Proof.
  intros Hk. unfold fetchByPlatform. destruct platform_; [| | |contradiction].
  - destruct (parseSpotifyUrl url_) as [i|]; [|unfold ret; discriminate].
    unfold bind, ret.
    destruct (fetchSpotifyPlaylist w i h) as [[r|] ?]; [|discriminate].
    now intros [= -> _ _].
  - destruct (parseAppleMusicUrl url_) as [ref|]; [|unfold ret; discriminate].
    unfold bind, ret.
    destruct (fetchAppleMusicPlaylist w _ _ h) as [[r|] ?]; [|discriminate].
    intros [= <- _ _]. now exists ref.
  - destruct (parseYouTubeMusicUrl url_) as [i|]; [|unfold ret; discriminate].
    unfold bind, ret.
    destruct (fetchYouTubeMusicPlaylist w i h) as [[r|] ?]; [|discriminate].
    now intros [= -> _ _].
Qed.

(** X20.  An import that returns after the matching stage calls the store
    either not at all, when it fails, or exactly twice, when it succeeds:
    [createPlaylist] with the name of the source playlist, then
    [updatePlaylist] with the playlist of the result.  That playlist keeps
    what the created playlist had beside tracks, cover art and import
    source, and records as import source the detected platform, the
    identifier parsed from the URL and the name of the source playlist; with
    a callback, a [done] event with the counts of the result is reported. *)
Theorem importPlaylist_saves_once
    (w : World) (url_ : string) (onProgress : bool) (h h1 : History)
    (id_ : string) (data : PlaylistData) (res : ImportResult) :
  detectPlatform url_ <> unknown ->
  fetchByPlatform w (detectPlatform url_) url_
    (atFetch onProgress (detectPlatform url_) h)
  = (Ok (inr (id_, Some data)), h1) ->
  tracks data <> [] ->
  fst (importPlaylist w url_ onProgress h) = Ok res ->
  exists evs,
    snd (importPlaylist w url_ onProgress h) = h ++ evs /\
    match detectPlatform url_ with
    | spotify => parseSpotifyUrl url_ = Some id_
    | apple => exists ref, parseAppleMusicUrl url_ = Some ref /\ id_ = id ref
    | youtube => parseYouTubeMusicUrl url_ = Some id_
    | unknown => False
    end /\
    (success res = false -> storeCalls evs = []) /\
    (success res = true ->
     exists newPlaylist hC pl,
       createPlaylist w hC (name data) = Ok newPlaylist /\
       playlist res = Some pl /\
       storeCalls evs = [EvCreatePlaylist (name data); EvUpdatePlaylist pl] /\
       UserPlaylist.others pl = UserPlaylist.others newPlaylist /\
       UserPlaylist.importSource pl
       = Some {| platform := detectPlatform url_;
                 originalId := id_;
                 originalName := name data |} /\
       (onProgress = true ->
        In (EvProgress
              {| Progress.stage := Progress.done;
                 Progress.current := matchedTracks res;
                 Progress.total := totalTracks res;
                 Progress.message := "Import complete!" |}) evs)).
Proof.
  intros Hknown Hfetch Hdata Hres.
  pose proof (fetchByPlatform_id w (detectPlatform url_) url_ _ _ _ _
                Hknown Hfetch) as Hid.
  destruct (importPlaylist_parts w url_ onProgress h h1 id_ data
              Hknown Hfetch Hdata)
    as (matched & unmatched & evsF & evsL & tail & HevF & Htrace & Htail
        & Hsnd & Hnil & Hcons).
  destruct Htrace as (_ & _ & _ & _ & _ & HevL & _).
  eexists. split; [exact Hsnd|]. split; [exact Hid|].
  assert (Hstore : forall tail0,
            storeCalls
              ((if onProgress then [fetchingEvent (detectPlatform url_)] else [])
               ++ evsF
               ++ announce onProgress
                    (matchingOpens (Z.of_nat (List.length (tracks data))))
               ++ evsL ++ tail0)
            = storeCalls tail0).
  { intros tail0.
    rewrite !storeCalls_app, (fetch_no_store evsF HevF),
      (matching_no_store evsL HevL).
    destruct (announce_quiet onProgress
                (matchingOpens (Z.of_nat (List.length (tracks data)))))
      as (_ & _ & _ & -> & _).
    now destruct onProgress. }
  rewrite Hstore.
  destruct matched as [|first others_].
  - destruct (Hnil eq_refl) as (-> & E). rewrite E in Hres.
    inversion Hres; subst res. split; [reflexivity | discriminate].
  - destruct (Hcons ltac:(discriminate))
      as [(E & _)|(newPlaylist & hC & Ec & Hs & Hdone & E)];
      rewrite E in Hres; [discriminate|].
    inversion Hres; subst res. cbn [success matchedTracks totalTracks playlist].
    split; [discriminate|].
    intros _. exists newPlaylist, hC. eexists.
    split; [exact Ec|]. split; [reflexivity|]. split; [exact Hs|].
    split; [reflexivity|]. split; [reflexivity|].
    intros Hcb. rewrite !in_app_iff. right. right. right. right.
    exact (Hdone Hcb).
Qed.

Lemma importPlaylist_saves_once_witness :
  exists pl,
    storeCalls (snd (importPlaylist Sample.oneVideoQobuz Sample.youtubeUrl
                       true []))
    = [EvCreatePlaylist (VStr "Road mix"); EvUpdatePlaylist pl].
Proof.
  destruct (importPlaylist Sample.oneVideoQobuz Sample.youtubeUrl true [])
    as [[res|] evs0] eqn:Hrun; [|vm_compute in Hrun; discriminate].
  assert (Hsuccess : success res = true).
  { vm_compute in Hrun. now inversion Hrun. }
  destruct (importPlaylist_saves_once Sample.oneVideoQobuz Sample.youtubeUrl
              true []
              [fetchingEvent youtube;
               EvFetch (invidiousRequest "https://invidious.io.lol" "PLxyz")]
              "PLxyz"
              {| name := VStr "Road mix"; tracks := [Sample.songA] |} res)
    as (evs & He & _ & _ & Hs).
  - vm_compute. discriminate.
  - vm_compute. reflexivity.
  - discriminate.
  - now rewrite Hrun.
  - destruct (Hs Hsuccess) as (newPlaylist & hC & pl & _ & _ & Hcalls & _).
    exists pl. rewrite Hrun in He. cbn [snd app] in He |- *.
    now rewrite He.
Defined.

(* ====================================================================== *)
(** ** From a share link to the first request *)
(* ====================================================================== *)

Lemma matchAndSave_extends (w : World) (onProgress : bool)
    (platform_ : ImportPlatform) (id_ : string) (data : PlaylistData)
    (h : History) :
  exists evs, snd (matchAndSave w onProgress platform_ id_ data h) = h ++ evs.
Proof.
  destruct (matchAndSave w onProgress platform_ id_ data h) as [r h'] eqn:E.
  apply matchAndSave_run in E as (evs & -> & _). now exists evs.
Qed.

(** X21.  An [open.spotify.com] playlist link, with or without a query
    string after the identifier, is classified [spotify] and parsed to its
    identifier, and the import then opens the fetch stage and sends its
    first request to the metadata endpoint for that identifier. *)
Theorem importPlaylist_open_spotify_link
    (w : World) (id_ rest : string) (onProgress : bool) (h : History) :
  id_ <> ""%string -> allChars Str.isAlnum id_ = true ->
  stopsAt Str.isAlnum rest = true ->
  let url_ := ("https://open.spotify.com/playlist/" ++ id_ ++ rest)%string in
  detectPlatform url_ = spotify /\
  parseSpotifyUrl url_ = Some id_ /\
  exists evs,
    snd (importPlaylist w url_ onProgress h)
    = h ++ (if onProgress then [fetchingEvent spotify] else [])
        ++ EvFetch {| url := ("https://api.spotifydown.com/metadata/playlist/"
                              ++ id_)%string;
                      headers := [ ("Origin", "https://spotifydown.com");
                                   ("Referer", "https://spotifydown.com/") ]%string |}
        :: evs.
Proof.
  intros Hne Hall Hstop. cbv zeta.
  assert (Hd : detectPlatform
                 ("https://open.spotify.com/playlist/" ++ id_ ++ rest)%string
               = spotify).
  { unfold detectPlatform. cbv zeta.
    assert (Hin : Str.includes
                    (Str.toLowerCase
                       ("https://open.spotify.com/playlist/" ++ id_ ++ rest)%string)
                    "spotify.com" = true).
    { apply includes_lower_iff.
      exists "https://open."%string, "spotify.com"%string,
        ("/playlist/" ++ id_ ++ rest)%string.
      split; reflexivity. }
    now rewrite Hin. }
  pose proof (parseSpotifyUrl_open_link id_ rest Hne Hall Hstop) as Hp.
  split; [exact Hd|]. split; [exact Hp|].
  rewrite importPlaylist_known by (rewrite Hd; discriminate).
  rewrite Hd. unfold fetchByPlatform. rewrite Hp.
  unfold bind at 1, ret. unfold atFetch.
  set (h0 := h ++ (if onProgress then [fetchingEvent spotify] else [])).
  assert (Hfetch : exists r more,
            fetchSpotifyPlaylist w id_ h0
            = (Ok r, h0 ++ EvFetch (spotifyDownRequest id_) :: more)).
  { rewrite fetchSpotifyPlaylist_chain. cbv zeta.
    destruct (spotifyDownStrategy_run w id_ h0) as [r1 ->]. cbn [fst].
    destruct r1; [now exists (Some p), []|].
    destruct (spotifyScraperStrategy_run w id_
                (h0 ++ [EvFetch (spotifyDownRequest id_)])) as [r2 ->].
    cbn [fst].
    destruct r2; [now exists (Some p), [EvFetch (spotifyScraperRequest id_)]|].
    destruct (spotifyEmbedStrategy_run w id_
                (h0 ++ [EvFetch (spotifyDownRequest id_);
                        EvFetch (spotifyScraperRequest id_)])) as [r3 ->].
    cbn [fst]. now exists r3, [EvFetch (spotifyScraperRequest id_);
                               EvFetch (spotifyEmbedRequest id_)]. }
  destruct Hfetch as (r & more & ->).
  assert (Hstart : forall evs,
            (h0 ++ EvFetch (spotifyDownRequest id_) :: more) ++ evs
            = h ++ (if onProgress then [fetchingEvent spotify] else [])
                ++ EvFetch (spotifyDownRequest id_) :: more ++ evs).
  { intros evs. unfold h0. now rewrite <- !app_assoc. }
  destruct r as [data|].
  - destruct (tracks data) as [|t ts] eqn:Ht.
    + exists more. cbn [snd]. unfold h0. rewrite <- app_assoc. reflexivity.
    + destruct (matchAndSave_extends w onProgress spotify id_ data
                  (h0 ++ EvFetch (spotifyDownRequest id_) :: more))
        as (evs & ->).
      exists (more ++ evs). rewrite Hstart. reflexivity.
  - exists more. cbn [snd]. unfold h0. rewrite <- app_assoc. reflexivity.
Qed.

Lemma importPlaylist_open_spotify_link_witness :
  detectPlatform "https://open.spotify.com/playlist/37i9dQZF1DXcBWIGoYBM5M?si=abc"
  = spotify /\
  parseSpotifyUrl "https://open.spotify.com/playlist/37i9dQZF1DXcBWIGoYBM5M?si=abc"
  = Some "37i9dQZF1DXcBWIGoYBM5M"%string.
Proof.
  destruct (importPlaylist_open_spotify_link Sample.offline
              "37i9dQZF1DXcBWIGoYBM5M" "?si=abc" true [])
    as (Hd & Hp & _).
  - discriminate.
  - reflexivity.
  - reflexivity.
  - split; [exact Hd | exact Hp].
Defined.
